(** * g-scrape: the fetch layer, the orchestrator and the deduplicator

    A shallow embedding of [src/g-scrape/main_scraper.py].

    Python values are modelled as follows.
    - [str] is [string]; [str.lower] is the ASCII lower-casing map.
    - a [list] is a [list]; a [dict] keyed by strings is a [gmap string _];
      a [set] of strings is a [gset string].
    - a call that can raise returns a [result]: [Return v] or [Raise e].
      Only subclasses of Python's [Exception] are modelled, which is what
      [except Exception] catches.
    - the network, the browser, the random generator and the clock are
      oracles passed as arguments. *)

From stdpp Require Import base gmap strings list fin_maps.
From Stdlib Require Import ZArith QArith Ascii.

Local Open Scope Z_scope.
Local Open Scope nat_scope.
Local Open Scope string_scope.
Local Open Scope list_scope.

(** ** Strings *)

(** [c.lower()] on one ASCII character. *)
Definition lower_ascii (c : ascii) : ascii :=
  let n := nat_of_ascii c in
  if (65 <=? n)%nat && (n <=? 90)%nat then ascii_of_nat (n + 32) else c.

(** [s.lower()]. *)
Fixpoint lower (s : string) : string :=
  match s with
  | EmptyString => EmptyString
  | String c rest => String (lower_ascii c) (lower rest)
  end.

(** [needle in haystack] for two strings. *)
Fixpoint contains (needle haystack : string) : bool :=
  String.prefix needle haystack
  || match haystack with
     | EmptyString => false
     | String _ rest => contains needle rest
     end.

(** [not s] for a string: true exactly on the empty string. *)
Definition str_falsy (s : string) : bool :=
  match s with EmptyString => true | _ => false end.

(** ** The [Game] dataclass (lines 49-69) *)

Record Game := mkGame {
  name : string;
  url : string;
  source : string;
  embed_url : string;
  iframe_code : string;
  image_url : string;
  description : string;
  category : string;
  tags : list string;
  play_count : Z;
  rating : Q;
  date_scraped : string
}.

(** [Game(name=..., url=..., source=...)] with every other field at its
    default, followed by [__post_init__]: [tags] [None] becomes the empty
    list and an empty [date_scraped] becomes the creation time [now]. *)
Definition Game_post_init (now : string) (tags0 : option (list string))
    (g : Game) : Game :=
  let g1 :=
    match tags0 with
    | None => mkGame (name g) (url g) (source g) (embed_url g) (iframe_code g)
                (image_url g) (description g) (category g) []
                (play_count g) (rating g) (date_scraped g)
    | Some _ => g
    end in
  if str_falsy (date_scraped g1)
  then mkGame (name g1) (url g1) (source g1) (embed_url g1) (iframe_code g1)
         (image_url g1) (description g1) (category g1) (tags g1)
         (play_count g1) (rating g1) now
  else g1.

Definition Game_new (now name0 url0 source0 : string) : Game :=
  Game_post_init now None
    (mkGame name0 url0 source0 EmptyString EmptyString EmptyString
       EmptyString EmptyString [] 0%Z 0%Q EmptyString).

(** Attribute assignments [game.f = v] on a record held in a local variable. *)
Definition set_name (v : string) (g : Game) : Game :=
  mkGame v (url g) (source g) (embed_url g) (iframe_code g) (image_url g)
    (description g) (category g) (tags g) (play_count g) (rating g)
    (date_scraped g).
Definition set_url (v : string) (g : Game) : Game :=
  mkGame (name g) v (source g) (embed_url g) (iframe_code g) (image_url g)
    (description g) (category g) (tags g) (play_count g) (rating g)
    (date_scraped g).
Definition set_image_url (v : string) (g : Game) : Game :=
  mkGame (name g) (url g) (source g) (embed_url g) (iframe_code g) v
    (description g) (category g) (tags g) (play_count g) (rating g)
    (date_scraped g).
Definition set_iframe_code (v : string) (g : Game) : Game :=
  mkGame (name g) (url g) (source g) (embed_url g) v (image_url g)
    (description g) (category g) (tags g) (play_count g) (rating g)
    (date_scraped g).

(** ** Deduplication (lines 1086-1101) *)

(** [f"{game.name.lower()}_{game.url}"]. *)
Definition game_id (g : Game) : string :=
  lower (name g) +:+ "_" +:+ url g.

(** The [for game in self.all_games] loop, with its two accumulators. *)
Fixpoint dedupe_loop (seen : gset string) (unique_games games : list Game)
    : list Game :=
  match games with
  | [] => unique_games
  | game :: rest =>
      let gid := game_id game in
      if decide (gid ∈ seen)
      then dedupe_loop seen unique_games rest
      else dedupe_loop ({[gid]} ∪ seen) (unique_games ++ [game]) rest
  end.

Definition dedupe (games : list Game) : list Game :=
  dedupe_loop ∅ [] games.

(** The key the specification names: the lower-cased name paired with the
    URL. *)
Definition spec_key (g : Game) : string * string :=
  (lower (name g), url g).

(** ** Exceptions and results *)

(** The exceptions the modelled calls can raise; all are subclasses of
    Python's [Exception]. *)
Inductive exn :=
  | IndexError
  | ZeroDivisionError
  | ConnectionError (cause : string)
  | HTTPError (status : Z)
  | Timeout
  | WebDriverException (msg : string)
  | TimeoutException
  | TimeoutError
  | OtherException (msg : string).

Inductive result (A : Type) :=
  | Return (v : A)
  | Raise (e : exn).
Arguments Return {A} v.
Arguments Raise {A} e.

#[global] Instance result_ret : MRet result := λ A v, Return v.
#[global] Instance result_bind : MBind result := λ A B f m,
  match m with
  | Return v => f v
  | Raise e => Raise e
  end.

(** [try: body except Exception as e: handler(e)]. *)
Definition try_except {A} (body : result A) (handler : exn → result A)
    : result A :=
  match body with
  | Return v => Return v
  | Raise e => handler e
  end.

(** [try: body finally: final]: the [finally] block runs on every path, and
    an exception it raises replaces the outcome of the body. *)
Definition try_finally {A} (body : result A) (final : result ())
    : result A :=
  match final with
  | Return _ => body
  | Raise e => Raise e
  end.

(** ** The outside world *)

Record Response := mkResponse {
  status_code : Z;
  text : string
}.

(** A started browser: the answers of [driver.get(url)], of the
    [WebDriverWait] for the body tag, of [driver.page_source] and of
    [driver.quit()]. *)
Record Driver := mkDriver {
  driver_get : string → result ();
  wait_for_body : result ();
  page_source : result string;
  quit : result ()
}.

Record World := mkWorld {
  (** [self.ua.random] *)
  ua_random : result string;
  (** the draw of the random generator used by [random.choice] *)
  random_draw : nat;
  (** [session.get(url, headers=..., proxies=..., timeout=..., verify=False)] *)
  requests_get :
    string → gmap string string → gmap string string → result Response;
  (** [cloudscraper.create_scraper().get(url, timeout=...)] *)
  cloudscraper_get : string → result Response;
  (** [webdriver.Chrome(options=options)], from the option arguments *)
  webdriver_Chrome : list string → result Driver
}.

(** [response.raise_for_status()]. *)
Definition raise_for_status (r : Response) : result () :=
  if ((400 <=? status_code r) && (status_code r <? 600))%Z
  then Raise (HTTPError (status_code r))
  else Return ().

(** [random.choice(seq)]. *)
Definition random_choice {A} (draw : nat) (seq : list A) : result A :=
  match seq with
  | [] => Raise IndexError
  | _ :: _ =>
      match seq !! (draw mod length seq) with
      | Some x => Return x
      | None => Raise IndexError
      end
  end.

(** ** ProxyManager (lines 79-124) *)

Record ProxyManager := mkProxyManager {
  proxies : list string;
  current_proxy_idx : nat
}.

Definition _load_proxies : list string :=
  [ "http://45.77.56.114:3128";
    "http://138.197.157.44:8080";
    "http://165.227.103.244:8080";
    "http://159.65.69.186:9300";
    "socks5://127.0.0.1:9050";
    "socks5h://127.0.0.1:9050" ].

Definition ProxyManager_init : ProxyManager :=
  mkProxyManager _load_proxies 0.

Definition get_random_proxy (self : ProxyManager) (draw : nat)
    : result (gmap string string) :=
  match proxies self with
  | [] => Return ∅
  | _ :: _ =>
      proxy ← random_choice draw (proxies self);
      if String.prefix "socks" proxy
      then Return (<["https" := proxy]> (<["http" := proxy]> ∅))
      else Return (<["https" := proxy]> (<["http" := proxy]> ∅))
  end.

(** ** AdvancedScraper (lines 126-237) *)

Definition get_headers (w : World) : result (gmap string string) :=
  ua ← ua_random w;
  Return (list_to_map
    [ ("User-Agent", ua);
      ("Accept",
       "text/html,application/xhtml+xml,application/xml;q=0.9,image/webp,*/*;q=0.8");
      ("Accept-Language", "en-US,en;q=0.5");
      ("Accept-Encoding", "gzip, deflate");
      ("Connection", "keep-alive");
      ("Upgrade-Insecure-Requests", "1");
      ("Cache-Control", "max-age=0") ]).

Definition block_indicators : list string :=
  ["captcha"; "cloudflare"; "access denied"].

(** [any(indicator in response.text.lower() for indicator in [...])]. *)
Definition block_detected (body : string) : bool :=
  existsb (λ indicator, contains indicator (lower body)) block_indicators.

(** [scrape_with_requests]. The pause of [self._delay()] has no result and
    is left out; [requests.Session().get] and [requests.get] are the one
    oracle [requests_get]. *)
Definition scrape_with_requests (w : World) (pm : ProxyManager)
    (url0 : string) (use_proxy : bool) : result (option string) :=
  try_except
    (headers ← get_headers w;
     proxies0 ← (if use_proxy then get_random_proxy pm (random_draw w)
                 else Return ∅);
     response ← requests_get w url0 headers proxies0;
     raise_for_status response;;
     if block_detected (text response)
     then Return None
     else Return (Some (text response)))
    (λ e, Return None).

(** The [try] block of [scrape_with_selenium], with the value the variable
    [driver] holds when the block is left. *)
Definition selenium_try (w : World) (pm : ProxyManager) (url0 : string)
    : option Driver * result (option string) :=
  match ua_random w with
  | Raise e => (None, Raise e)
  | Return ua =>
      let options :=
        ["--headless"; "--no-sandbox"; "--disable-dev-shm-usage";
         "user-agent=" +:+ ua] in
      match get_random_proxy pm (random_draw w) with
      | Raise e => (None, Raise e)
      | Return proxy =>
          let options' :=
            match proxy !! "http" with
            | Some p => options ++ ["--proxy-server=" +:+ p]
            | None => options
            end in
          match webdriver_Chrome w options' with
          | Raise e => (None, Raise e)
          | Return driver =>
              (Some driver,
               driver_get driver url0;;
               wait_for_body driver;;
               page ← page_source driver;
               Return (Some page))
          end
      end
  end.

(** [scrape_with_selenium]: the [try] block, its [except Exception] handler
    and the [finally] block that closes the browser when one was started. *)
Definition scrape_with_selenium (w : World) (pm : ProxyManager)
    (url0 : string) : result (option string) :=
  let '(driver, body) := selenium_try w pm url0 in
  try_finally
    (try_except body (λ e, Return None))
    (match driver with
     | Some d => quit d
     | None => Return ()
     end).

(** [scrape_with_cloudscraper]: the text of the response is returned as it
    is. *)
Definition scrape_with_cloudscraper (w : World) (url0 : string)
    : result (option string) :=
  try_except
    (response ← cloudscraper_get w url0;
     Return (Some (text response)))
    (λ e, Return None).

(** ** WebsiteScraper and the Poki job (lines 239-364) *)

(** What the HTML library answers: [urljoin], [extract_iframes] (the
    serialized iframe and embed tags of a page). *)
Record Parser := mkParser {
  urljoin : string → string → string;
  extract_iframes : string → list string
}.

(** One element of [game_elements], as the three [element.find] calls of
    the loop body see it: the stripped text of the name element, the [href]
    of the first link and the [src] of the first image, when present. *)
Record Element := mkElement {
  name_elem : option string;
  link_elem : option string;
  img_elem : option string
}.

(** [s.rstrip('/')]. *)
Fixpoint rstrip_slash (s : string) : string :=
  match s with
  | EmptyString => EmptyString
  | String c rest =>
      let rest' := rstrip_slash rest in
      if Ascii.eqb c "/" && str_falsy rest' then EmptyString
      else String c rest'
  end.

(** [s.split('/')[-1]]: the part after the last slash. *)
Fixpoint last_segment_from (acc s : string) : string :=
  match s with
  | EmptyString => acc
  | String c rest =>
      if Ascii.eqb c "/" then last_segment_from EmptyString rest
      else last_segment_from (acc +:+ String c EmptyString) rest
  end.
Definition last_segment (s : string) : string :=
  last_segment_from EmptyString s.

(** The double quote character, and the tag
    [<iframe src="{embed_url}" width="100%" height="100%" frameborder="0"
    allowfullscreen></iframe>] of line 352. *)
Definition dquote : string := String (ascii_of_nat 34) EmptyString.

Definition iframe_tag (embed : string) : string :=
  "<iframe src=" +:+ dquote +:+ embed +:+ dquote
  +:+ " width=" +:+ dquote +:+ "100%" +:+ dquote
  +:+ " height=" +:+ dquote +:+ "100%" +:+ dquote
  +:+ " frameborder=" +:+ dquote +:+ "0" +:+ dquote
  +:+ " allowfullscreen></iframe>".

(** [Game(name=..., url=..., source=self.name)] with two empty strings,
    line 319. *)
Definition poki_created (now self_name : string) : Game :=
  Game_new now EmptyString EmptyString self_name.

(** The assignments of lines 326-339 on the record just created. *)
Definition poki_extracted (p : Parser) (base_url : string) (element : Element)
    (game : Game) : Game :=
  let game1 :=
    match name_elem element with
    | Some t => set_name t game
    | None => game
    end in
  let game2 :=
    match link_elem element with
    | Some href => set_url (urljoin p base_url href) game1
    | None => game1
    end in
  match img_elem element with
  | Some src => set_image_url (urljoin p base_url src) game2
  | None => game2
  end.

(** Lines 343-352: fetch the game page and assign [iframe_code]. *)
Definition poki_embed (p : Parser) (game_html : option string) (game : Game)
    : Game :=
  match game_html with
  | Some html =>
      if str_falsy html then game
      else
        match extract_iframes p html with
        | iframe :: _ => set_iframe_code iframe game
        | [] =>
            let game_slug := last_segment (rstrip_slash (url game)) in
            let embed := "https://poki.com/embed/" +:+ game_slug in
            set_iframe_code (iframe_tag embed) game
        end
  | None => game
  end.

(** The body of the [for element in game_elements[:100]] loop: the new value
    of [self.games]. An exception inside the body skips the element. *)
Definition poki_element (w : World) (pm : ProxyManager) (p : Parser)
    (now self_name base_url : string) (self_games : list Game)
    (element : Element) : list Game :=
  let game := poki_extracted p base_url element (poki_created now self_name) in
  if negb (str_falsy (name game)) && negb (str_falsy (url game))
  then
    match scrape_with_requests w pm (url game) true with
    | Return game_html => self_games ++ [poki_embed p game_html game]
    | Raise _ => self_games
    end
  else self_games.

Definition poki_loop (w : World) (pm : ProxyManager) (p : Parser)
    (now self_name base_url : string) (self_games : list Game)
    (game_elements : list Element) : list Game :=
  foldl (poki_element w pm p now self_name base_url) self_games
    (take 100 game_elements).

(** A job as the orchestrator sees it. [games] is the accumulator
    [self.games] at the time the orchestrator collects the job; [scrape] is
    the outcome of the call [scraper.scrape()]; [in_time] tells whether the
    call ended within the 600 seconds of [future.result(timeout=600)]. *)
Module WebsiteScraper.
Record t := mk {
  name : string;
  base_url : string;
  games : list Game;
  scrape : result (list Game);
  in_time : bool
}.
End WebsiteScraper.

(** ** MainGameScraper (lines 1042-1161) *)

Record MainGameScraper := mkMain {
  scrapers : list WebsiteScraper.t;
  all_games : list Game;
  scraping_stats : gmap string nat
}.

Definition MainGameScraper_init (registry : list WebsiteScraper.t)
    : MainGameScraper :=
  mkMain registry [] ∅.

(** [self.run_single_scraper(scraper)]. *)
Definition run_single_scraper (scraper : WebsiteScraper.t)
    : result (list Game) :=
  WebsiteScraper.scrape scraper.

(** [future.result(timeout=600)]. *)
Definition future_result (scraper : WebsiteScraper.t) : result (list Game) :=
  if WebsiteScraper.in_time scraper then run_single_scraper scraper
  else Raise TimeoutError.

(** The body of [for scraper, future in futures]. *)
Definition collect (self : MainGameScraper) (scraper : WebsiteScraper.t)
    : MainGameScraper :=
  match future_result scraper with
  | Return games =>
      mkMain (scrapers self) (all_games self ++ games)
        (<[WebsiteScraper.name scraper := length games]> (scraping_stats self))
  | Raise e =>
      mkMain (scrapers self) (all_games self)
        (<[WebsiteScraper.name scraper := 0]> (scraping_stats self))
  end.

(** The futures are collected in the order the scrapers were submitted,
    which is the order of [self.scrapers]. *)
Definition run_scrapers_parallel (self : MainGameScraper) : MainGameScraper :=
  foldl collect self (scrapers self).

Definition deduplicate_games (self : MainGameScraper) : MainGameScraper :=
  mkMain (scrapers self) (dedupe (all_games self)) (scraping_stats self).

(** The JSON document and the CSV rows written by [save_results]. *)
Record Metadata := mkMetadata {
  total_games : nat;
  scraped_at : string;
  sources : gmap string nat
}.

Record CsvRow := mkCsvRow {
  csv_name : string;
  csv_url : string;
  csv_source : string;
  has_embed : bool
}.

Record Saved := mkSaved {
  metadata : Metadata;
  saved_games : list Game;
  csv_rows : list CsvRow
}.

Definition save_results (now : string) (self : MainGameScraper) : Saved :=
  let games_dict := all_games self in
  mkSaved
    (mkMetadata (length games_dict) now (scraping_stats self))
    games_dict
    (map (λ game, mkCsvRow (name game) (url game) (source game)
                    (negb (str_falsy (iframe_code game))))
       games_dict).

(** The lines [print_stats] hands to the logger. *)
Inductive LogLine :=
  | LogRule
  | LogTitle
  | LogTotal (total : nat)
  | LogEmbed (with_embed : nat) (percent : Q)
  | LogBySource
  | LogSource (source_name : string) (count : nat)
  | LogSample
  | LogGame (i : nat) (game_name game_source : string)
  | LogFatal (e : exn).

(** [a / b] on two counts; the quotient is kept as a rational. *)
Definition truediv (a b : nat) : result Q :=
  match b with
  | O => Raise ZeroDivisionError
  | S _ => Return (Z.of_nat a # Pos.of_nat b)
  end.

(** [print_stats]: the lines logged and how the call ends. The per-source
    lines follow the enumeration of the map. *)
Definition print_stats (self : MainGameScraper) : list LogLine * result () :=
  let total := length (all_games self) in
  let games_with_embed :=
    length (List.filter (λ g, negb (str_falsy (iframe_code g)))
              (all_games self)) in
  let head := [LogRule; LogTitle; LogRule; LogTotal total] in
  match truediv games_with_embed total with
  | Raise e => (head, Raise e)
  | Return ratio =>
      (head
       ++ [LogEmbed games_with_embed (ratio * 100)%Q]
       ++ [LogBySource]
       ++ map (λ kv, LogSource kv.1 kv.2) (map_to_list (scraping_stats self))
       ++ [LogSample]
       ++ imap (λ i game, LogGame (S i) (name game) (source game))
            (take 10 (all_games self))
       ++ [LogRule],
       Return ())
  end.

(** The [try] block of [main] from the run to the statistics, and its
    [except Exception] handler, which logs the fatal error. *)
Definition main_run (now : string) (registry : list WebsiteScraper.t)
    : MainGameScraper * Saved * list LogLine :=
  let scraper := MainGameScraper_init registry in
  let scraper1 := run_scrapers_parallel scraper in
  let scraper2 := deduplicate_games scraper1 in
  let output := save_results now scraper2 in
  match print_stats scraper2 with
  | (lines, Return _) => (scraper2, output, lines)
  | (lines, Raise e) => (scraper2, output, lines ++ [LogFatal e])
  end.

(** The sum of the recorded per-source counts. *)
Definition stats_sum (stats : gmap string nat) : nat :=
  map_fold (λ _ count acc, count + acc) 0 stats.

(** The outcome tag of a job in the words of the specification (section 3,
    Job Statistics). The source has no such type; it is used only to state
    what the recorded statistics would have to tell apart. *)
Inductive JobOutcome := completed | timed_out | failed.

Definition job_outcome (scraper : WebsiteScraper.t) : JobOutcome :=
  if WebsiteScraper.in_time scraper
  then match WebsiteScraper.scrape scraper with
       | Return _ => completed
       | Raise _ => failed
       end
  else timed_out.

(** The tag of a fetch outcome in the words of the specification (section 3,
    Fetch Outcome). The source has no such type; the fetch methods return
    [Optional[str]]. *)
Inductive OutcomeTag := Success | Blocked | TransportError | TimeoutTag.

(** The count the orchestrator records for a job, and the items it merges. *)
Definition job_count (scraper : WebsiteScraper.t) : nat :=
  match future_result scraper with
  | Return games => length games
  | Raise _ => 0
  end.

Definition job_items (scraper : WebsiteScraper.t) : list Game :=
  match future_result scraper with
  | Return games => games
  | Raise _ => []
  end.

(** ** Concrete inputs used by the examples below *)

(** Two records whose (lower-cased name, URL) pairs differ while their
    identifiers coincide. *)
Definition clash1 : Game :=
  Game_new "2024-01-01T00:00:00" "g" "https://poki.com/x_http://a/1" "A".
Definition clash2 : Game :=
  Game_new "2024-01-01T00:00:00" "g_https://poki.com/x" "http://a/1" "B".

(** The two jobs of the end-to-end scenario. *)
Definition item_Foo : Game := Game_new "2024-01-01T00:00:00" "Foo" "http://x/1" "A".
Definition item_foo : Game := Game_new "2024-01-01T00:00:00" "foo" "http://x/1" "B".
Definition item_Bar : Game := Game_new "2024-01-01T00:00:00" "Bar" "http://x/2" "B".

Definition job_A : WebsiteScraper.t :=
  WebsiteScraper.mk "A" "http://x" [item_Foo] (Return [item_Foo]) true.
Definition job_B : WebsiteScraper.t :=
  WebsiteScraper.mk "B" "http://x" [item_foo; item_Bar]
    (Return [item_foo; item_Bar]) true.

(** A page served with status 200 that asks for a captcha, and worlds in
    which every retrieval gets that page, is refused, or times out. *)
Definition page_captcha : Response :=
  mkResponse 200 "<html>Please solve the CAPTCHA to continue</html>".

Definition page_game : Response :=
  mkResponse 200 "<html><body>Bubble Shooter</body></html>".

Definition driver_showing (page : string) : Driver :=
  mkDriver (λ _, Return ()) (Return ()) (Return page) (Return ()).

Definition world_serving (page : Response) : World :=
  mkWorld (Return "Mozilla/5.0") 4
    (λ _ _ _, Return page)
    (λ _, Return page)
    (λ _, Return (driver_showing (text page))).

Definition world_failing (e : exn) : World :=
  mkWorld (Return "Mozilla/5.0") 4
    (λ _ _ _, Raise e)
    (λ _, Raise e)
    (λ _, Raise e).

Definition world_blocked : World := world_serving page_captcha.
Definition world_ok : World := world_serving page_game.
Definition world_refused : World :=
  world_failing (ConnectionError "connection refused").
Definition world_timeout : World := world_failing Timeout.

(** A job that raises after it has put three records into [self.games],
    the same job when it instead overruns the timeout, and a job that
    completes with no record. *)
Definition item_1 : Game := Game_new "2024-01-01T00:00:00" "One" "http://y/1" "C".
Definition item_2 : Game := Game_new "2024-01-01T00:00:00" "Two" "http://y/2" "C".
Definition item_3 : Game := Game_new "2024-01-01T00:00:00" "Three" "http://y/3" "C".

Definition job_raising : WebsiteScraper.t :=
  WebsiteScraper.mk "C" "http://y" [item_1; item_2; item_3]
    (Raise (OtherException "boom")) true.
Definition job_overrunning : WebsiteScraper.t :=
  WebsiteScraper.mk "C" "http://y" [item_1; item_2; item_3]
    (Return [item_1; item_2; item_3]) false.
Definition job_empty : WebsiteScraper.t :=
  WebsiteScraper.mk "C" "http://y" [] (Return []) true.

(** An element of the Poki listing page with a title, a link and an image,
    and an HTML library that joins URLs by concatenation and finds no
    iframe. *)
Definition parser_plain : Parser :=
  mkParser (λ base href, base +:+ href) (λ _, []).

Definition element_Foo : Element :=
  mkElement (Some "Foo") (Some "/g/foo") (Some "/img/foo.png").

(** ** Further methods of the scraper classes *)

(** The response of an [aiohttp] session: its [status] and the outcome of
    [await response.text()]. *)
Record AioResponse := mkAioResponse {
  status : Z;
  aio_text : result string
}.

(** [scrape_with_aiohttp] (lines 227-237); [session_get] answers
    [session.get(url, headers=headers, timeout=self.timeout)]. *)
Definition scrape_with_aiohttp (w : World) (url0 : string)
    (session_get : string → gmap string string → result AioResponse)
    : result (option string) :=
  try_except
    (headers ← get_headers w;
     response ← session_get url0 headers;
     if (status response =? 200)%Z
     then body ← aio_text response; Return (Some body)
     else Return None)
    (λ e, Return None).




(** [PokiScraper.scrape] (lines 300-364): the listing page is fetched with
    the anti-bot client; [game_elements] lists the elements the three
    [find_all] calls find in it. *)
Definition poki_scrape (w : World) (pm : ProxyManager) (p : Parser)
    (game_elements : string → list Element)
    (now self_name base_url : string) (self_games : list Game) : list Game :=
  match scrape_with_cloudscraper w base_url with
  | Return (Some html) =>
      if str_falsy html then []
      else poki_loop w pm p now self_name base_url self_games
             (game_elements html)
  | Return None => []
  | Raise _ => self_games
  end.

(** ** CoolmathScraper (lines 366-445) *)

(** A link of the listing page as the loop body reads it: its [href] when it
    has one, the text of its title element when one is found, its own text
    and the [src] of its first image. *)
Record CoolmathLink := mkCoolmathLink {
  link_href : option string;
  link_title : option string;
  link_text : string;
  link_img : option string
}.

(** [s.replace('0-', '')]. *)
Fixpoint remove_0dash (s : string) : string :=
  match s with
  | EmptyString => EmptyString
  | String c rest =>
      match rest with
      | String d rest' =>
          if Ascii.eqb c "0" && Ascii.eqb d "-" then remove_0dash rest'
          else String c (remove_0dash rest)
      | EmptyString => s
      end
  end.

(** The [for iframe in iframes] loop with its [break]; an iframe is given by
    its [src] and its serialization. *)
Fixpoint coolmath_scan (iframes : list (string * string)) (game : Game)
    : Game :=
  match iframes with
  | [] => game
  | iframe :: rest =>
      if contains "game" (lower iframe.1) || contains "play" (lower iframe.1)
      then set_iframe_code iframe.2 game
      else coolmath_scan rest game
  end.

(** Lines 416-433: the embed code from the fetched game page. *)
Definition coolmath_embed (page_iframes : string → list (string * string))
    (game_url : string) (game_html : option string) (game : Game) : Game :=
  match game_html with
  | Some html =>
      if str_falsy html then game
      else
        let game1 := coolmath_scan (page_iframes html) game in
        if str_falsy (iframe_code game1)
        then
          let gid := remove_0dash (last_segment game_url) in
          let embed :=
            "https://www.coolmathgames.com/sites/default/files/GamePlayer/"
            +:+ gid +:+ "/index.html" in
          set_iframe_code (iframe_tag embed) game1
        else game1
  | None => game
  end.

(** The body of [for link in game_links[:80]]: the new value of
    [self.games]. *)
Definition coolmath_link (w : World) (pm : ProxyManager) (p : Parser)
    (page_iframes : string → list (string * string))
    (now self_name base_url : string) (self_games : list Game)
    (link : CoolmathLink) : list Game :=
  match link_href link with
  | None => self_games
  | Some href =>
      let game_url := urljoin p base_url href in
      let title :=
        match link_title link with
        | Some t => t
        | None => link_text link
        end in
      if str_falsy title || (String.length title <? 2)%nat then self_games
      else
        let game :=
          Game_new now (String.substring 0 200 title) game_url self_name in
        let game1 :=
          match link_img link with
          | Some src => set_image_url (urljoin p base_url src) game
          | None => game
          end in
        match scrape_with_requests w pm game_url true with
        | Return game_html =>
            self_games
            ++ [coolmath_embed page_iframes game_url game_html game1]
        | Raise _ => self_games
        end
  end.

Definition coolmath_loop (w : World) (pm : ProxyManager) (p : Parser)
    (page_iframes : string → list (string * string))
    (now self_name base_url : string) (self_games : list Game)
    (game_links : list CoolmathLink) : list Game :=
  foldl (coolmath_link w pm p page_iframes now self_name base_url) self_games
    (take 80 game_links).

(** [CoolmathScraper.scrape]: the listing page is fetched with the plain
    path; [listing_links] lists the links the two [find_all] calls find. *)
Definition coolmath_scrape (w : World) (pm : ProxyManager) (p : Parser)
    (page_iframes : string → list (string * string))
    (listing_links : string → list CoolmathLink)
    (now self_name base_url : string) (self_games : list Game) : list Game :=
  match scrape_with_requests w pm (base_url +:+ "/0-all-games") true with
  | Return (Some html) =>
      if str_falsy html then []
      else coolmath_loop w pm p page_iframes now self_name base_url
             self_games (listing_links html)
  | Return None => []
  | Raise _ => self_games
  end.

(** The sum of the counts of a registry, job by job. *)
Definition registry_count (registry : list WebsiteScraper.t) : nat :=
  foldr (λ s acc, job_count s + acc) 0 registry.

(** The set of identifiers of a collection. *)
Definition ids_of (games : list Game) : gset string :=
  list_to_set (map game_id games).

(** The test the sum of [print_stats] applies to a record:
    [if g.iframe_code]. *)
Definition with_embed (g : Game) : bool := negb (str_falsy (iframe_code g)).

(** Whether a logged line is one of the sample lines. *)
Definition is_sample_line (line : LogLine) : bool :=
  match line with
  | LogGame _ _ _ => true
  | _ => false
  end.

(** A browser that shows a page and whose [quit] raises, and a world in
    which that browser is started. *)
Definition driver_stuck : Driver :=
  mkDriver (λ _, Return ()) (Return ())
    (Return "<html><body>Bubble Shooter</body></html>")
    (Raise (WebDriverException "cannot quit")).

Definition world_stuck : World :=
  mkWorld (Return "Mozilla/5.0") 4
    (λ _ _ _, Return page_game)
    (λ _, Return page_game)
    (λ _, Return driver_stuck).

(** An [aiohttp] session answering every request with status 200 and the
    game page. *)
Definition session_ok (u : string) (headers : gmap string string)
    : result AioResponse :=
  Return (mkAioResponse 200 (Return "<html><body>Bubble Shooter</body></html>")).


Definition coolmath_record (self_name : string) (g : Game) : Prop :=
  (2 ≤ String.length (name g))%nat ∧ (String.length (name g) ≤ 200)%nat
  ∧ source g = self_name.

(** A listing link of Coolmath with a title of one character, one with a
    proper title, and a page with one iframe that is no game frame. *)
Definition link_short : CoolmathLink :=
  mkCoolmathLink (Some "/0-x") (Some "X") "X" None.
Definition link_chess : CoolmathLink :=
  mkCoolmathLink (Some "/0-chess") None "Chess" (Some "/img/chess.png").
Definition iframes_ads (html : string) : list (string * string) :=
  [("https://ads.example/banner", "<iframe src=ads></iframe>")].

(** ** UnblockedGamesScraper (lines 816-886) *)

(** Python's white space among the ASCII characters. *)
Definition is_space (c : ascii) : bool :=
  let n := nat_of_ascii c in
  (n =? 32)%nat || ((9 <=? n)%nat && (n <=? 13)%nat)
  || ((28 <=? n)%nat && (n <=? 31)%nat).

(** [len(s.split())]: the number of maximal runs of non-space characters. *)
Fixpoint count_words (in_word : bool) (s : string) : nat :=
  match s with
  | EmptyString => 0
  | String c rest =>
      if is_space c then count_words false rest
      else (if in_word then 0 else 1) + count_words true rest
  end.

(** [s.startswith((p1, p2, ...))]. *)
Definition startswith_any (prefixes : list string) (s : string) : bool :=
  existsb (λ pre, String.prefix pre s) prefixes.

Definition skip_markers : list string :=
  ["mailto:"; "javascript:"; "#"; "?"].

(** [any(x in href.lower() for x in [...])]. *)
Definition skipped_link (href : string) : bool :=
  existsb (λ x, contains x (lower href)) skip_markers.

(** A link of a site page: [link['href']] and [link.get_text(strip=True)]. *)
Record SiteLink := mkSiteLink {
  site_href : string;
  site_text : string
}.

(** The body of [for link in links[:50]]. *)
Definition unblocked_link (w : World) (pm : ProxyManager) (p : Parser)
    (now site_url : string) (self_games : list Game) (link : SiteLink)
    : list Game :=
  let href := site_href link in
  let label := site_text link in
  if (2 <? String.length label)%nat
     && (contains "game" (lower label) || contains "play" (lower label)
         || (count_words false label <? 4)%nat)
  then
    let href1 :=
      if negb (startswith_any ["http"; "//"] href)
      then urljoin p site_url href else href in
    if skipped_link href1 then self_games
    else
      let game :=
        Game_new now (String.substring 0 100 label) href1
          ("Unblocked (" +:+ site_url +:+ ")") in
      let game1 :=
        match scrape_with_requests w pm href1 true with
        | Return (Some html) =>
            if str_falsy html then game
            else match extract_iframes p html with
                 | iframe :: _ => set_iframe_code iframe game
                 | [] => game
                 end
        | Return None => game
        | Raise _ => game
        end in
      self_games ++ [game1]
  else self_games.

(** The body of [for site_url in unblocked_sites]; [site_links] lists the
    links with an [href] found in a page. *)
Definition unblocked_site (w : World) (pm : ProxyManager) (p : Parser)
    (site_links : string → list SiteLink) (now : string)
    (self_games : list Game) (site_url : string) : list Game :=
  match scrape_with_requests w pm site_url true with
  | Return (Some html) =>
      if str_falsy html then self_games
      else foldl (unblocked_link w pm p now site_url) self_games
             (take 50 (site_links html))
  | Return None => self_games
  | Raise _ => self_games
  end.

Definition unblocked_sites : list string :=
  [ "https://sites.google.com/view/tyronesgameshack";
    "https://sites.google.com/site/unblockedgames66ez";
    "https://sites.google.com/view/classroom6x";
    "https://sites.google.com/view/unblockedgameswtf";
    "https://sites.google.com/view/unblocked-games-76" ].

(** The loop over a list of sites, and [UnblockedGamesScraper.scrape]. *)
Definition unblocked_over (w : World) (pm : ProxyManager) (p : Parser)
    (site_links : string → list SiteLink) (now : string)
    (self_games : list Game) (sites : list string) : list Game :=
  foldl (unblocked_site w pm p site_links now) self_games sites.

Definition unblocked_scrape (w : World) (pm : ProxyManager) (p : Parser)
    (site_links : string → list SiteLink) (now : string)
    (self_games : list Game) : list Game :=
  unblocked_over w pm p site_links now self_games unblocked_sites.

(** What holds of every record an Unblocked job collects from the given
    sites. *)
Definition unblocked_record (sites : list string) (g : Game) : Prop :=
  (3 ≤ String.length (name g))%nat ∧ (String.length (name g) ≤ 100)%nat
  ∧ skipped_link (url g) = false
  ∧ ∃ site_url, site_url ∈ sites
                ∧ source g = "Unblocked (" +:+ site_url +:+ ")".

(** A world in which one site cannot be reached and every other page is the
    game page; a page with a mail link and a game link. *)
Definition world_one_down : World :=
  mkWorld (Return "Mozilla/5.0") 4
    (λ u _ _, if String.eqb u "https://sites.google.com/view/classroom6x"
              then Raise (ConnectionError "connection refused")
              else Return page_game)
    (λ _, Return page_game)
    (λ _, Return (driver_showing (text page_game))).

Definition links_sample (html : string) : list SiteLink :=
  [mkSiteLink "mailto:admin@example.org" "Mail the game admin";
   mkSiteLink "/slope" "Slope"].

(** ** Lemmas on the deduplication loop *)

Lemma dedupe_loop_acc seen acc games :
  dedupe_loop seen acc games = acc ++ dedupe_loop seen [] games.
Proof.
  revert seen acc.
  induction games as [|g rest IH]; intros seen acc; simpl.
  - by rewrite app_nil_r.
  - case_decide.
    + apply IH.
    + rewrite (IH _ (acc ++ [g])), (IH _ ([] ++ [g])).
      by rewrite <- app_assoc.
Qed.

Lemma dedupe_loop_cons_seen seen g rest :
  game_id g ∈ seen →
  dedupe_loop seen [] (g :: rest) = dedupe_loop seen [] rest.
Proof. intros Hin. simpl. by rewrite decide_True. Qed.

Lemma dedupe_loop_cons_fresh seen g rest :
  game_id g ∉ seen →
  dedupe_loop seen [] (g :: rest)
  = g :: dedupe_loop ({[game_id g]} ∪ seen) [] rest.
Proof.
  intros Hnin. simpl. rewrite decide_False by done.
  by rewrite dedupe_loop_acc.
Qed.

Lemma dedupe_loop_idem seen games :
  dedupe_loop seen [] (dedupe_loop seen [] games)
  = dedupe_loop seen [] games.
Proof.
  revert seen.
  induction games as [|g rest IH]; intros seen; [done|].
  destruct (decide (game_id g ∈ seen)) as [Hin|Hnin].
  - rewrite dedupe_loop_cons_seen by done. apply IH.
  - rewrite dedupe_loop_cons_fresh by done.
    rewrite dedupe_loop_cons_fresh by done.
    by rewrite IH.
Qed.

Lemma dedupe_loop_sublist seen games :
  dedupe_loop seen [] games `sublist_of` games.
Proof.
  revert seen.
  induction games as [|g rest IH]; intros seen; [done|].
  destruct (decide (game_id g ∈ seen)) as [Hin|Hnin].
  - rewrite dedupe_loop_cons_seen by done. by apply sublist_cons.
  - rewrite dedupe_loop_cons_fresh by done. by apply sublist_skip.
Qed.

(** The identifiers of the retained records are pairwise distinct and none
    was seen before. *)
Lemma dedupe_loop_ids seen games :
  NoDup (map game_id (dedupe_loop seen [] games))
  ∧ ∀ g, g ∈ dedupe_loop seen [] games → game_id g ∉ seen.
Proof.
  revert seen.
  induction games as [|g rest IH]; intros seen.
  - split; [constructor|]. intros g Hg. by apply elem_of_nil in Hg.
  - destruct (decide (game_id g ∈ seen)) as [Hin|Hnin].
    + rewrite dedupe_loop_cons_seen by done. apply IH.
    + rewrite dedupe_loop_cons_fresh by done.
      destruct (IH ({[game_id g]} ∪ seen)) as [Hnd Hfresh].
      split.
      * simpl. constructor; [|done].
        intros Hmem. apply list_elem_of_fmap in Hmem as (g' & Heq & Hg').
        apply Hfresh in Hg'. apply Hg'.
        apply elem_of_union_l, elem_of_singleton. by symmetry.
      * intros g' Hg'. apply elem_of_cons in Hg' as [->|Hg']; [done|].
        apply Hfresh in Hg'. intros Hs. apply Hg'. by apply elem_of_union_r.
Qed.

(** Every identifier of the input survives: a record is retained for it
    unless the identifier was seen before. *)
Lemma dedupe_loop_covers seen games g :
  g ∈ games →
  game_id g ∈ seen
  ∨ ∃ g', g' ∈ dedupe_loop seen [] games ∧ game_id g' = game_id g.
Proof.
  revert seen.
  induction games as [|h rest IH]; intros seen Hg.
  - by apply elem_of_nil in Hg.
  - destruct (decide (game_id h ∈ seen)) as [Hin|Hnin].
    + rewrite dedupe_loop_cons_seen by done.
      apply elem_of_cons in Hg as [->|Hg]; [by left|by apply IH].
    + rewrite dedupe_loop_cons_fresh by done.
      apply elem_of_cons in Hg as [->|Hg].
      * right. exists h. split; [apply elem_of_cons; by left|done].
      * destruct (IH ({[game_id h]} ∪ seen) Hg) as [Hs|(g' & Hg' & Heq)].
        -- apply elem_of_union in Hs as [Hs|Hs]; [|by left].
           apply elem_of_singleton in Hs.
           right. exists h. split; [apply elem_of_cons; by left|done].
        -- right. exists g'. split; [apply elem_of_cons; by right|done].
Qed.

(** First occurrence wins: a record whose identifier occurs in no earlier
    record is retained. *)
Lemma dedupe_loop_first seen before g after :
  game_id g ∉ seen →
  (∀ h, h ∈ before → game_id h ≠ game_id g) →
  g ∈ dedupe_loop seen [] (before ++ g :: after).
Proof.
  revert seen.
  induction before as [|h rest IH]; intros seen Hseen Hbefore; simpl app.
  - rewrite dedupe_loop_cons_fresh by done. apply elem_of_cons; by left.
  - assert (game_id h ≠ game_id g) as Hne
      by (apply Hbefore, elem_of_cons; by left).
    assert (∀ h', h' ∈ rest → game_id h' ≠ game_id g) as Hrest
      by (intros h' Hh'; apply Hbefore, elem_of_cons; by right).
    destruct (decide (game_id h ∈ seen)) as [Hin|Hnin].
    + rewrite dedupe_loop_cons_seen by done. by apply IH.
    + rewrite dedupe_loop_cons_fresh by done.
      apply elem_of_cons; right. apply IH; [|done].
      apply not_elem_of_union. split; [|done].
      apply not_elem_of_singleton. congruence.
Qed.

(** Records that agree on the lower-cased name and on the URL have the same
    identifier, so the later one is dropped. *)
Lemma spec_key_game_id g1 g2 :
  spec_key g1 = spec_key g2 → game_id g1 = game_id g2.
Proof.
  unfold spec_key, game_id. intros Heq.
  injection Heq as Hname Hurl. by rewrite Hname, Hurl.
Qed.

(** The end-to-end scenario of the specification: job A yields Foo, job B
    yields foo and Bar; two records remain, Foo from A and Bar. *)
Lemma dedupe_end_to_end :
  all_games (deduplicate_games
               (run_scrapers_parallel (MainGameScraper_init [job_A; job_B])))
  = [item_Foo; item_Bar].
Proof. vm_compute. reflexivity. Qed.

(** C1: the merged collection [clash1; clash2] holds two records whose
    lower-cased names differ and whose URLs differ, yet both get the
    identifier [g_https://poki.com/x_http://a/1] and the second is dropped:
    records are collapsed although their (name, URL) keys are not equal. *)
Theorem dedupe_collapses_distinct_keys :
  lower (name clash1) ≠ lower (name clash2)
  ∧ url clash1 ≠ url clash2
  ∧ spec_key clash1 ≠ spec_key clash2
  ∧ game_id clash1 = game_id clash2
  ∧ dedupe [clash1; clash2] = [clash1].
Proof.
  split; [discriminate|].
  split; [discriminate|].
  split; [discriminate|].
  split; vm_compute; reflexivity.
Qed.

(** C6: deduplication is idempotent, on a collection and on the state of
    the orchestrator: [dedupe (dedupe x) = dedupe x]. *)
Theorem dedupe_idempotent :
  (∀ x : list Game, dedupe (dedupe x) = dedupe x)
  ∧ (∀ self : MainGameScraper,
       deduplicate_games (deduplicate_games self) = deduplicate_games self).
Proof.
  split.
  - intros x. apply dedupe_loop_idem.
  - intros self. unfold deduplicate_games. simpl.
    f_equal. apply dedupe_loop_idem.
Qed.

(** ** The identity pool *)

Lemma random_choice_nonempty {A} draw (x : A) (seq : list A) :
  ∃ y, random_choice draw (x :: seq) = Return y ∧ y ∈ x :: seq.
Proof.
  unfold random_choice.
  destruct ((x :: seq) !! (draw mod length (x :: seq))) as [y|] eqn:Hlook.
  - exists y. split; [done|]. by eapply list_elem_of_lookup_2.
  - apply lookup_ge_None in Hlook.
    pose proof (Nat.mod_upper_bound draw (length (x :: seq))) as Hlt.
    simpl in *. lia.
Qed.

(** On a non-empty pool the identity routes both schemes through one proxy
    of the pool. *)
Lemma get_random_proxy_nonempty pm draw :
  proxies pm ≠ [] →
  ∃ proxy, proxy ∈ proxies pm
    ∧ get_random_proxy pm draw
      = Return (<["https" := proxy]> (<["http" := proxy]> ∅)).
Proof.
  intros Hne. unfold get_random_proxy.
  destruct (proxies pm) as [|x seq]; [done|].
  destruct (random_choice_nonempty draw x seq) as (y & Hy & Hin).
  rewrite Hy. simpl. exists y. split; [done|].
  by destruct (String.prefix "socks" y).
Qed.

(** C5: selecting an identity never raises, whatever the pool and the
    random draw; on the empty pool it returns the empty proxy mapping, the
    direct identity. *)
Theorem get_random_proxy_never_raises :
  (∀ idx draw, get_random_proxy (mkProxyManager [] idx) draw = Return ∅)
  ∧ (∀ pm draw, ∃ identity, get_random_proxy pm draw = Return identity).
Proof.
  split; [done|].
  intros pm draw.
  destruct (proxies pm) as [|x seq] eqn:Hpool.
  - exists ∅. unfold get_random_proxy. by rewrite Hpool.
  - destruct (get_random_proxy_nonempty pm draw) as (proxy & _ & Heq).
    + by rewrite Hpool.
    + eauto.
Qed.

(** ** The fetch engine *)

Lemma try_except_returns {A} (body : result A) (v : A) :
  ∃ r, try_except body (λ _, Return v) = Return r.
Proof. destruct body; simpl; eauto. Qed.

Lemma scrape_with_requests_returns w pm u use_proxy :
  ∃ r, scrape_with_requests w pm u use_proxy = Return r.
Proof. apply try_except_returns. Qed.

Lemma scrape_with_cloudscraper_returns w u :
  ∃ r, scrape_with_cloudscraper w u = Return r.
Proof. apply try_except_returns. Qed.

(** What [scrape_with_requests] hands over as content is the text of a
    response that passed the status check and holds no block indicator. *)
Lemma scrape_with_requests_content w pm u use_proxy t :
  scrape_with_requests w pm u use_proxy = Return (Some t) →
  ∃ headers proxies0 response,
    requests_get w u headers proxies0 = Return response
    ∧ raise_for_status response = Return ()
    ∧ text response = t
    ∧ block_detected t = false.
Proof.
  unfold scrape_with_requests, try_except.
  destruct (get_headers w) as [headers|e]; simpl; [|discriminate].
  destruct (if use_proxy then get_random_proxy pm (random_draw w) else Return ∅)
    as [proxies0|e]; simpl; [|discriminate].
  destruct (requests_get w u headers proxies0) as [response|e] eqn:Hget;
    simpl; [|discriminate].
  destruct (raise_for_status response) as [[]|e] eqn:Hstatus;
    simpl; [|discriminate].
  destruct (block_detected (text response)) eqn:Hblock; simpl; [discriminate|].
  intros [= <-]. by exists headers, proxies0, response.
Qed.

(** Whatever makes the GET raise, the caller gets [None]. *)
Lemma scrape_with_requests_transport w pm u use_proxy e :
  (∀ headers proxies0, requests_get w u headers proxies0 = Raise e) →
  scrape_with_requests w pm u use_proxy = Return None.
Proof.
  intros Hget. unfold scrape_with_requests, try_except.
  destruct (get_headers w) as [headers|e1]; simpl; [|done].
  destruct (if use_proxy then get_random_proxy pm (random_draw w) else Return ∅)
    as [proxies0|e2]; simpl; [|done].
  by rewrite Hget.
Qed.

(** A response that fails the status check or shows a block indicator also
    gives [None]. *)
Lemma scrape_with_requests_rejected w pm u use_proxy response :
  (∀ headers proxies0, requests_get w u headers proxies0 = Return response) →
  raise_for_status response ≠ Return () ∨ block_detected (text response) = true →
  scrape_with_requests w pm u use_proxy = Return None.
Proof.
  intros Hget Hbad. unfold scrape_with_requests, try_except.
  destruct (get_headers w) as [headers|e1]; simpl; [|done].
  destruct (if use_proxy then get_random_proxy pm (random_draw w) else Return ∅)
    as [proxies0|e2]; simpl; [|done].
  rewrite Hget. simpl.
  destruct (raise_for_status response) as [[]|e3]; simpl; [|done].
  destruct Hbad as [Hbad|Hbad]; [done|]. by rewrite Hbad.
Qed.

Lemma scrape_with_selenium_no_driver w pm u :
  (selenium_try w pm u).1 = None →
  scrape_with_selenium w pm u = Return None.
Proof.
  unfold scrape_with_selenium.
  destruct (selenium_try w pm u) as [driver body] eqn:Htry. simpl.
  intros ->. simpl.
  unfold selenium_try in Htry.
  destruct (ua_random w); [|by injection Htry as <-].
  destruct (get_random_proxy pm (random_draw w)); [|by injection Htry as <-].
  destruct (webdriver_Chrome w _); [discriminate|by injection Htry as <-].
Qed.

Lemma scrape_with_selenium_quit_ok w pm u d :
  (selenium_try w pm u).1 = Some d →
  quit d = Return () →
  ∃ r, scrape_with_selenium w pm u = Return r.
Proof.
  unfold scrape_with_selenium.
  destruct (selenium_try w pm u) as [driver body]. simpl.
  intros -> Hquit. rewrite Hquit. simpl. apply try_except_returns.
Qed.

(** C3: in a world where every retrieval of [https://poki.com] succeeds with
    status 200 and a page holding the token CAPTCHA, the plain path withholds
    the page, but the anti-bot client and the scripted browser both return
    it to the caller as content. *)
Theorem blocked_page_returned_as_content :
  status_code page_captcha = 200%Z
  ∧ block_detected (text page_captcha) = true
  ∧ scrape_with_requests world_blocked ProxyManager_init "https://poki.com" true
    = Return None
  ∧ scrape_with_cloudscraper world_blocked "https://poki.com"
    = Return (Some (text page_captcha))
  ∧ scrape_with_selenium world_blocked ProxyManager_init "https://poki.com"
    = Return (Some (text page_captcha)).
Proof.
  split; [reflexivity|].
  split; [vm_compute; reflexivity|].
  split; [vm_compute; reflexivity|].
  split; vm_compute; reflexivity.
Qed.

(** C4, as stated, fails: a blocked page, a refused connection and a
    timeout all give the caller the same value, so no reading of the
    returned value can tell the three apart. *)
Lemma fetch_failures_indistinguishable :
  ¬ ∃ tag_of : result (option string) → OutcomeTag,
      tag_of (scrape_with_requests world_blocked ProxyManager_init
                "https://poki.com" true) = Blocked
      ∧ tag_of (scrape_with_requests world_refused ProxyManager_init
                  "https://poki.com" true) = TransportError
      ∧ tag_of (scrape_with_requests world_timeout ProxyManager_init
                  "https://poki.com" true) = TimeoutTag.
Proof.
  intros (tag_of & Hblocked & Hrefused & _).
  assert (scrape_with_requests world_blocked ProxyManager_init
            "https://poki.com" true
          = scrape_with_requests world_refused ProxyManager_init
              "https://poki.com" true) as Hsame
    by (vm_compute; reflexivity).
  rewrite Hsame in Hblocked. congruence.
Qed.

(** C4, amended: a retrieval returns either the page text or [None].
    [scrape_with_requests] and [scrape_with_cloudscraper] never raise;
    [scrape_with_selenium] returns [None] when no browser was started and
    returns a value when the browser closes without raising. The plain path
    returns content only for a response that passed the status check and
    shows no block indicator; a raising GET, an error status and a blocked
    page all give the same [None]. *)
Theorem fetch_returns_optional_content :
  (∀ w pm u use_proxy, ∃ r, scrape_with_requests w pm u use_proxy = Return r)
  ∧ (∀ w u, ∃ r, scrape_with_cloudscraper w u = Return r)
  ∧ (∀ w pm u, (selenium_try w pm u).1 = None →
       scrape_with_selenium w pm u = Return None)
  ∧ (∀ w pm u d, (selenium_try w pm u).1 = Some d → quit d = Return () →
       ∃ r, scrape_with_selenium w pm u = Return r)
  ∧ (∀ w pm u use_proxy t,
       scrape_with_requests w pm u use_proxy = Return (Some t) →
       ∃ headers proxies0 response,
         requests_get w u headers proxies0 = Return response
         ∧ raise_for_status response = Return ()
         ∧ text response = t
         ∧ block_detected t = false)
  ∧ (∀ w pm u use_proxy e,
       (∀ headers proxies0, requests_get w u headers proxies0 = Raise e) →
       scrape_with_requests w pm u use_proxy = Return None)
  ∧ (∀ w pm u use_proxy response,
       (∀ headers proxies0,
          requests_get w u headers proxies0 = Return response) →
       raise_for_status response ≠ Return ()
       ∨ block_detected (text response) = true →
       scrape_with_requests w pm u use_proxy = Return None).
Proof.
  split; [exact scrape_with_requests_returns|].
  split; [exact scrape_with_cloudscraper_returns|].
  split; [exact scrape_with_selenium_no_driver|].
  split; [exact scrape_with_selenium_quit_ok|].
  split; [exact scrape_with_requests_content|].
  split; [exact scrape_with_requests_transport|].
  exact scrape_with_requests_rejected.
Qed.

(** The statement above in the worlds [world_ok], [world_refused],
    [world_timeout] and [world_blocked]. *)
Lemma fetch_returns_optional_content_witness :
  (∃ r, scrape_with_selenium world_ok ProxyManager_init "https://poki.com"
        = Return r)
  ∧ scrape_with_selenium world_refused ProxyManager_init "https://poki.com"
    = Return None
  ∧ (∃ headers proxies0 response,
       requests_get world_ok "https://poki.com" headers proxies0
       = Return response
       ∧ raise_for_status response = Return ()
       ∧ text response = text page_game
       ∧ block_detected (text page_game) = false)
  ∧ scrape_with_requests world_timeout ProxyManager_init "https://poki.com"
      true = Return None
  ∧ scrape_with_requests world_blocked ProxyManager_init "https://poki.com"
      true = Return None.
Proof.
  destruct fetch_returns_optional_content
    as (_ & _ & Hnone & Hquit & Hcontent & Hraise & Hreject).
  split.
  { apply (Hquit world_ok ProxyManager_init "https://poki.com"
             (driver_showing (text page_game))); reflexivity. }
  split.
  { apply (Hnone world_refused ProxyManager_init "https://poki.com").
    reflexivity. }
  split.
  { apply (Hcontent world_ok ProxyManager_init "https://poki.com" true).
    vm_compute. reflexivity. }
  split.
  { apply (Hraise world_timeout ProxyManager_init "https://poki.com" true
             Timeout).
    reflexivity. }
  apply (Hreject world_blocked ProxyManager_init "https://poki.com" true
           page_captcha).
  - reflexivity.
  - right. vm_compute. reflexivity.
Defined.

(** ** The orchestrator *)

Lemma run_scrapers_field registry self :
  scrapers (foldl collect self registry) = scrapers self.
Proof.
  revert self. induction registry as [|s rest IH]; intros self; [done|].
  simpl. rewrite IH. unfold collect. by destruct (future_result s).
Qed.

(** The merged collection: the items of the jobs that returned, in the
    order of the registry. *)
Lemma run_all_games registry self :
  all_games (foldl collect self registry)
  = all_games self ++ flat_map job_items registry.
Proof.
  revert self. induction registry as [|s rest IH]; intros self; simpl.
  - by rewrite app_nil_r.
  - rewrite IH. unfold collect, job_items.
    destruct (future_result s); simpl; [by rewrite <- app_assoc|done].
Qed.

Lemma run_stats registry self :
  scraping_stats (foldl collect self registry)
  = foldl (λ stats s, <[WebsiteScraper.name s := job_count s]> stats)
      (scraping_stats self) registry.
Proof.
  revert self. induction registry as [|s rest IH]; intros self; [done|].
  simpl. rewrite IH. unfold collect, job_count.
  by destruct (future_result s).
Qed.

Lemma stats_fold_other (registry : list WebsiteScraper.t)
    (stats : gmap string nat) (key : string) :
  key ∉ map WebsiteScraper.name registry →
  foldl (λ stats s, <[WebsiteScraper.name s := job_count s]> stats)
    stats registry !! key
  = stats !! key.
Proof.
  revert stats. induction registry as [|s rest IH]; intros stats Hkey; [done|].
  simpl in *. apply not_elem_of_cons in Hkey as [Hne Hrest].
  rewrite IH by done. by rewrite lookup_insert_ne.
Qed.

(** The entry of a job is the count of the last job of that name. *)
Lemma stats_fold_last (before after : list WebsiteScraper.t)
    (s : WebsiteScraper.t) (stats : gmap string nat) :
  WebsiteScraper.name s ∉ map WebsiteScraper.name after →
  foldl (λ stats s, <[WebsiteScraper.name s := job_count s]> stats)
    stats (before ++ s :: after) !! WebsiteScraper.name s
  = Some (job_count s).
Proof.
  intros Hafter. rewrite foldl_app. simpl.
  rewrite stats_fold_other by done. apply lookup_insert_eq.
Qed.

Lemma stats_fold_nodup (registry : list WebsiteScraper.t)
    (s : WebsiteScraper.t) (stats : gmap string nat) :
  NoDup (map WebsiteScraper.name registry) →
  s ∈ registry →
  foldl (λ stats s, <[WebsiteScraper.name s := job_count s]> stats)
    stats registry !! WebsiteScraper.name s
  = Some (job_count s).
Proof.
  intros Hnd Hin.
  apply list_elem_of_split in Hin as (before & after & ->).
  apply stats_fold_last.
  rewrite map_app in Hnd. apply NoDup_app in Hnd as (_ & _ & Hnd).
  simpl in Hnd. by apply NoDup_cons in Hnd as [Hnotin _].
Qed.

(** C2, as stated, fails: job C has put three records into its list when it
    raises, and job B completes; the merged collection holds the records of
    B only, and the same happens when C overruns the timeout. *)
Lemma failed_job_items_discarded :
  WebsiteScraper.games job_raising = [item_1; item_2; item_3]
  ∧ future_result job_raising = Raise (OtherException "boom")
  ∧ all_games (run_scrapers_parallel
                 (MainGameScraper_init [job_raising; job_B]))
    = [item_foo; item_Bar]
  ∧ (item_1 ∉ all_games (run_scrapers_parallel
                           (MainGameScraper_init [job_raising; job_B])))
  ∧ future_result job_overrunning = Raise TimeoutError
  ∧ all_games (run_scrapers_parallel
                 (MainGameScraper_init [job_overrunning; job_B]))
    = [item_foo; item_Bar].
Proof.
  split; [reflexivity|].
  split; [reflexivity|].
  split; [vm_compute; reflexivity|].
  split.
  { assert (all_games (run_scrapers_parallel
                         (MainGameScraper_init [job_raising; job_B]))
            = [item_foo; item_Bar]) as -> by (vm_compute; reflexivity).
    intros Hin.
    apply elem_of_cons in Hin as [Heq|Hin]; [discriminate|].
    apply elem_of_cons in Hin as [Heq|Hin]; [discriminate|].
    by apply elem_of_nil in Hin. }
  split; [reflexivity|].
  vm_compute. reflexivity.
Qed.

(** C2, amended: when the call of a job raises or overruns the timeout, the
    orchestrator merges none of its items and records the count 0 for it;
    the items of all other jobs are merged in registry order and the loop
    runs to its end. *)
Theorem failed_job_contributes_nothing self before job after e :
  scrapers self = before ++ job :: after →
  future_result job = Raise e →
  WebsiteScraper.name job ∉ map WebsiteScraper.name after →
  all_games (run_scrapers_parallel self)
  = all_games self ++ flat_map job_items before ++ flat_map job_items after
  ∧ scraping_stats (run_scrapers_parallel self) !! WebsiteScraper.name job
    = Some 0.
Proof.
  intros Hreg Hraise Hafter. unfold run_scrapers_parallel.
  rewrite run_all_games, run_stats, Hreg. split.
  - rewrite flat_map_app. simpl. unfold job_items at 2. by rewrite Hraise.
  - rewrite stats_fold_last by done. unfold job_count. by rewrite Hraise.
Qed.

(** The statement above for the registry A, C, B, where C raises. *)
Lemma failed_job_contributes_nothing_witness :
  all_games (run_scrapers_parallel
               (MainGameScraper_init [job_A; job_raising; job_B]))
  = [] ++ flat_map job_items [job_A] ++ flat_map job_items [job_B]
  ∧ scraping_stats (run_scrapers_parallel
                      (MainGameScraper_init [job_A; job_raising; job_B]))
      !! "C" = Some 0.
Proof.
  apply (failed_job_contributes_nothing
           (MainGameScraper_init [job_A; job_raising; job_B])
           [job_A] job_raising [job_B] (OtherException "boom")).
  - reflexivity.
  - reflexivity.
  - simpl. intros Hin.
    apply elem_of_cons in Hin as [Heq|Hin]; [discriminate|].
    by apply elem_of_nil in Hin.
Defined.

(** C9, as stated, fails: a job that completes with no item, a job that
    raises and a job that overruns the timeout all leave the same entry, the
    count 0, so the recorded statistics do not determine the outcome. *)
Lemma stats_do_not_record_outcome :
  ¬ ∃ outcome_of : option nat → JobOutcome,
      ∀ job,
        outcome_of (scraping_stats
                      (run_scrapers_parallel (MainGameScraper_init [job]))
                    !! WebsiteScraper.name job)
        = job_outcome job.
Proof.
  intros (outcome_of & Hdecode).
  pose proof (Hdecode job_empty) as Hcompleted.
  pose proof (Hdecode job_raising) as Hfailed.
  vm_compute in Hcompleted, Hfailed. congruence.
Qed.

(** C9, amended: for a registry with distinct job names, the statistics map
    each job name to one number, the length of the list the job returned, or
    0 when the call raised or overran the timeout; no outcome and no
    duration is kept. The saved report carries that mapping unchanged as
    its [sources]. *)
Theorem stats_record_counts_only self job now :
  NoDup (map WebsiteScraper.name (scrapers self)) →
  job ∈ scrapers self →
  scraping_stats (run_scrapers_parallel self) !! WebsiteScraper.name job
  = Some (job_count job)
  ∧ sources (metadata (save_results now
                         (deduplicate_games (run_scrapers_parallel self))))
    = scraping_stats (run_scrapers_parallel self).
Proof.
  intros Hnd Hin. split; [|done].
  unfold run_scrapers_parallel. rewrite run_stats.
  by apply stats_fold_nodup.
Qed.

(** The statement above for job B in the registry A, C, B. *)
Lemma stats_record_counts_only_witness :
  scraping_stats (run_scrapers_parallel
                    (MainGameScraper_init [job_A; job_raising; job_B]))
    !! "B" = Some 2
  ∧ sources (metadata (save_results "2024-01-01T01:00:00"
               (deduplicate_games
                  (run_scrapers_parallel
                     (MainGameScraper_init [job_A; job_raising; job_B])))))
    = scraping_stats (run_scrapers_parallel
                        (MainGameScraper_init [job_A; job_raising; job_B])).
Proof.
  apply (stats_record_counts_only
           (MainGameScraper_init [job_A; job_raising; job_B]) job_B
           "2024-01-01T01:00:00").
  - simpl. repeat constructor.
    + intros Hin.
      apply elem_of_cons in Hin as [Heq|Hin]; [discriminate|].
      apply elem_of_cons in Hin as [Heq|Hin]; [discriminate|].
      by apply elem_of_nil in Hin.
    + intros Hin.
      apply elem_of_cons in Hin as [Heq|Hin]; [discriminate|].
      by apply elem_of_nil in Hin.
    + intros Hin. by apply elem_of_nil in Hin.
  - simpl. apply elem_of_cons; right. apply elem_of_cons; right.
    apply elem_of_cons; by left.
Defined.

(** ** Statistics, report and the life of a record *)

Lemma print_stats_empty self :
  all_games self = [] → (print_stats self).2 = Raise ZeroDivisionError.
Proof. intros Hempty. unfold print_stats. by rewrite Hempty. Qed.


(** C7: in a run whose only job raises, the merged collection is empty, and
    [print_stats] stops with ZeroDivisionError at the percentage, after the
    total and before any per-source line; [main] ends in its fatal-error
    handler instead of with the report. *)
Theorem print_stats_raises_on_empty_run :
  all_games (deduplicate_games
               (run_scrapers_parallel (MainGameScraper_init [job_raising])))
  = []
  ∧ print_stats (deduplicate_games
                   (run_scrapers_parallel (MainGameScraper_init [job_raising])))
    = ([LogRule; LogTitle; LogRule; LogTotal 0], Raise ZeroDivisionError)
  ∧ (main_run "2024-01-01T01:00:00" [job_raising]).2
    = [LogRule; LogTitle; LogRule; LogTotal 0; LogFatal ZeroDivisionError]
  ∧ print_stats (MainGameScraper_init [])
    = ([LogRule; LogTitle; LogRule; LogTotal 0], Raise ZeroDivisionError).
Proof.
  split; [vm_compute; reflexivity|].
  split; [vm_compute; reflexivity|].
  split; vm_compute; reflexivity.
Qed.

(** C10: deduplication leaves the statistics untouched, so after a run they
    are the counts recorded when the jobs were collected; the report's
    [total_games] is the size of the deduplicated collection; and for the
    jobs A and B the counts sum to 3 while [total_games] is 2. *)
Theorem dedupe_leaves_stats_unchanged :
  (∀ self, scraping_stats (deduplicate_games self) = scraping_stats self)
  ∧ (∀ self,
       scraping_stats (deduplicate_games (run_scrapers_parallel self))
       = foldl (λ stats s, <[WebsiteScraper.name s := job_count s]> stats)
           (scraping_stats self) (scrapers self))
  ∧ (∀ self now,
       total_games (metadata (save_results now (deduplicate_games self)))
       = length (dedupe (all_games self)))
  ∧ (∃ registry now,
       total_games
         (metadata (save_results now
            (deduplicate_games
               (run_scrapers_parallel (MainGameScraper_init registry)))))
       < stats_sum
           (sources (metadata (save_results now
              (deduplicate_games
                 (run_scrapers_parallel (MainGameScraper_init registry))))))).
Proof.
  split; [done|].
  split; [intros self; apply run_stats|].
  split; [done|].
  exists [job_A; job_B], "2024-01-01T01:00:00".
  vm_compute. lia.
Qed.

Lemma poki_loop_prefix w pm p now self_name base_url self_games elements :
  self_games `prefix_of`
    poki_loop w pm p now self_name base_url self_games elements.
Proof.
  unfold poki_loop. generalize (take 100 elements) as todo. intros todo.
  revert self_games.
  induction todo as [|element rest IH]; intros self_games; [done|].
  simpl. etrans; [|apply IH].
  unfold poki_element.
  destruct (_ && _); [|done].
  destruct (scrape_with_requests _ _ _ _); [|done].
  by apply prefix_app_r.
Qed.

(** C8, as stated, fails: the Poki job creates the record with an empty
    name and an empty URL and assigns name, URL, image and iframe code
    afterwards; the record it collects differs from the record it
    created. *)
Lemma poki_record_assigned_after_creation :
  name (poki_created "2024-01-01T00:00:00" "Poki") = EmptyString
  ∧ url (poki_created "2024-01-01T00:00:00" "Poki") = EmptyString
  ∧ iframe_code (poki_created "2024-01-01T00:00:00" "Poki") = EmptyString
  ∧ ∃ collected,
      poki_loop world_ok ProxyManager_init parser_plain "2024-01-01T00:00:00"
        "Poki" "https://poki.com" [] [element_Foo] = [collected]
      ∧ name collected = "Foo"
      ∧ url collected = "https://poki.com/g/foo"
      ∧ image_url collected = "https://poki.com/img/foo.png"
      ∧ iframe_code collected = iframe_tag "https://poki.com/embed/foo"
      ∧ collected ≠ poki_created "2024-01-01T00:00:00" "Poki".
Proof.
  split; [reflexivity|].
  split; [reflexivity|].
  split; [reflexivity|].
  eexists. split; [vm_compute; reflexivity|].
  split; [reflexivity|].
  split; [reflexivity|].
  split; [reflexivity|].
  split; [vm_compute; reflexivity|].
  discriminate.
Qed.

(** C8, amended: once a record has been appended to the list of its job it
    is not changed. Later iterations of the Poki loop only append to the
    list; the merge appends the returned lists; deduplication keeps a
    sub-sequence of the same records; the saved report holds the collection
    as it is. The fields are assigned before the appending, not at
    creation. *)
Theorem collected_records_unchanged :
  (∀ w pm p now self_name base_url self_games elements,
     self_games `prefix_of`
       poki_loop w pm p now self_name base_url self_games elements)
  ∧ (∀ self,
       all_games (run_scrapers_parallel self)
       = all_games self ++ flat_map job_items (scrapers self))
  ∧ (∀ self,
       all_games (deduplicate_games self) `sublist_of` all_games self)
  ∧ (∀ self now, saved_games (save_results now self) = all_games self).
Proof.
  split; [exact poki_loop_prefix|].
  split; [intros self; apply run_all_games|].
  split; [intros self; apply dedupe_loop_sublist|].
  done.
Qed.

(** ** More on deduplication *)

Lemma ids_of_cons g games :
  ids_of (g :: games) = {[game_id g]} ∪ ids_of games.
Proof. done. Qed.

Lemma elem_of_ids_of gid games :
  gid ∈ ids_of games ↔ ∃ g, g ∈ games ∧ game_id g = gid.
Proof.
  unfold ids_of. rewrite elem_of_list_to_set, list_elem_of_fmap.
  split; intros (g & H1 & H2); exists g; by split.
Qed.

(** Deduplication of a concatenation: the first part is deduplicated on its
    own, the second part against the identifiers seen so far. *)
Lemma dedupe_loop_app seen games1 games2 :
  dedupe_loop seen [] (games1 ++ games2)
  = dedupe_loop seen [] games1
    ++ dedupe_loop (seen ∪ ids_of games1) [] games2.
Proof.
  revert seen.
  induction games1 as [|g rest IH]; intros seen.
  - rewrite app_nil_l. unfold ids_of. simpl. by rewrite (right_id_L ∅ (∪)).
  - rewrite <- app_comm_cons, ids_of_cons.
    destruct (decide (game_id g ∈ seen)) as [Hin|Hnin].
    + rewrite (dedupe_loop_cons_seen seen g (rest ++ games2)) by done.
      rewrite (dedupe_loop_cons_seen seen g rest) by done.
      rewrite IH.
      do 2 f_equal. apply set_eq. intros x.
      rewrite !elem_of_union, elem_of_singleton.
      split; [tauto|]. intros [?|[->|?]]; tauto.
    + rewrite (dedupe_loop_cons_fresh seen g (rest ++ games2)) by done.
      rewrite (dedupe_loop_cons_fresh seen g rest) by done.
      rewrite IH, <- app_comm_cons.
      do 3 f_equal. apply set_eq. intros x.
      rewrite !elem_of_union, elem_of_singleton. tauto.
Qed.

Lemma dedupe_loop_fixed seen games :
  NoDup (map game_id games) →
  (∀ g, g ∈ games → game_id g ∉ seen) →
  dedupe_loop seen [] games = games.
Proof.
  revert seen.
  induction games as [|g rest IH]; intros seen Hnd Hfresh; [done|].
  simpl in Hnd. apply NoDup_cons in Hnd as [Hhead Hnd].
  rewrite dedupe_loop_cons_fresh
    by (apply Hfresh, elem_of_cons; by left).
  f_equal. apply IH; [done|].
  intros h Hh. apply not_elem_of_union. split.
  - apply not_elem_of_singleton. intros Heq. apply Hhead.
    apply list_elem_of_fmap. by exists h.
  - apply Hfresh, elem_of_cons. by right.
Qed.

Lemma NoDup_map_factor {A B C} (f : A → B) (k : B → C) (l : list A) :
  NoDup (map (λ x, k (f x)) l) → NoDup (map f l).
Proof.
  induction l as [|x rest IH]; simpl; [constructor|].
  intros Hnd. apply NoDup_cons in Hnd as [Hhead Hnd].
  constructor; [|by apply IH].
  intros Hin. apply Hhead.
  apply list_elem_of_fmap in Hin as (y & Heq & Hy).
  apply list_elem_of_fmap. exists y. by rewrite Heq.
Qed.

(** After deduplication no two records share an identifier, and so no two
    share the lower-cased name together with the URL. *)
Theorem dedupe_keys_distinct (games : list Game) :
  NoDup (map game_id (dedupe games)) ∧ NoDup (map spec_key (dedupe games)).
Proof.
  pose proof (dedupe_loop_ids ∅ games) as [Hnd _]. split; [done|].
  apply (NoDup_map_factor spec_key (λ k, k.1 +:+ "_" +:+ k.2)). exact Hnd.
Qed.

(** Nothing is lost: every record of the input has a retained record with
    the same identifier. *)
Theorem dedupe_keeps_every_id (games : list Game) (g : Game) :
  g ∈ games → ∃ g', g' ∈ dedupe games ∧ game_id g' = game_id g.
Proof.
  intros Hg.
  destruct (dedupe_loop_covers ∅ games g Hg) as [Hempty|Hfound]; [|done].
  by apply not_elem_of_empty in Hempty.
Qed.

Lemma dedupe_keeps_every_id_witness :
  ∃ g', g' ∈ dedupe [item_Foo; item_foo; item_Bar]
        ∧ game_id g' = game_id item_foo.
Proof.
  apply (dedupe_keeps_every_id [item_Foo; item_foo; item_Bar] item_foo).
  apply elem_of_cons; right. apply elem_of_cons; by left.
Defined.

(** First occurrence wins: a record is retained when no earlier record of
    the collection has its identifier. *)
Theorem dedupe_first_occurrence_wins (before after : list Game) (g : Game) :
  (∀ h, h ∈ before → game_id h ≠ game_id g) →
  g ∈ dedupe (before ++ g :: after).
Proof.
  intros Hbefore. apply dedupe_loop_first; [|done]. apply not_elem_of_empty.
Qed.

Lemma dedupe_first_occurrence_wins_witness :
  item_Bar ∈ dedupe ([item_Foo; item_foo] ++ item_Bar :: [item_Bar]).
Proof.
  apply (dedupe_first_occurrence_wins [item_Foo; item_foo] [item_Bar]
           item_Bar).
  intros h Hh.
  apply elem_of_cons in Hh as [->|Hh]; [discriminate|].
  apply elem_of_cons in Hh as [->|Hh]; [discriminate|].
  by apply elem_of_nil in Hh.
Defined.

(** A collection whose identifiers are pairwise distinct is returned as it
    is. *)
Theorem dedupe_fixes_distinct (games : list Game) :
  NoDup (map game_id games) → dedupe games = games.
Proof.
  intros Hnd. apply dedupe_loop_fixed; [done|].
  intros g _. apply not_elem_of_empty.
Qed.

Lemma dedupe_fixes_distinct_witness :
  dedupe [item_Foo; item_Bar] = [item_Foo; item_Bar].
Proof.
  apply (dedupe_fixes_distinct [item_Foo; item_Bar]).
  simpl. constructor.
  - intros Hin. apply elem_of_cons in Hin as [Heq|Hin]; [discriminate|].
    by apply elem_of_nil in Hin.
  - constructor; [|constructor].
    intros Hin. by apply elem_of_nil in Hin.
Defined.

(** Deduplicating a concatenation keeps what deduplicating the first part
    alone keeps, as a prefix: the records retained from earlier jobs do not
    depend on what later jobs return. *)
Theorem dedupe_app_prefix (games1 games2 : list Game) :
  dedupe (games1 ++ games2)
  = dedupe games1 ++ dedupe_loop (ids_of games1) [] games2
  ∧ dedupe games1 `prefix_of` dedupe (games1 ++ games2).
Proof.
  assert (dedupe (games1 ++ games2)
          = dedupe games1 ++ dedupe_loop (ids_of games1) [] games2) as Heq.
  { unfold dedupe. rewrite dedupe_loop_app. by rewrite (left_id_L ∅ (∪)). }
  split; [done|]. rewrite Heq. by apply prefix_app_r.
Qed.

(** Appending a record whose lower-cased name and URL both occur in an
    earlier record changes nothing. *)
Theorem dedupe_drops_repeated_key (games : list Game) (g h : Game) :
  h ∈ games →
  lower (name h) = lower (name g) →
  url h = url g →
  dedupe (games ++ [g]) = dedupe games.
Proof.
  intros Hh Hname Hurl. unfold dedupe. rewrite dedupe_loop_app.
  rewrite dedupe_loop_cons_seen; [by rewrite app_nil_r|].
  apply elem_of_union_r, elem_of_ids_of. exists h. split; [done|].
  unfold game_id. by rewrite Hname, Hurl.
Qed.

Lemma dedupe_drops_repeated_key_witness :
  dedupe ([item_Foo; item_Bar] ++ [item_foo]) = dedupe [item_Foo; item_Bar].
Proof.
  apply (dedupe_drops_repeated_key [item_Foo; item_Bar] item_foo item_Foo).
  - apply elem_of_cons; by left.
  - reflexivity.
  - reflexivity.
Defined.

(** ** More on the orchestrator *)

Lemma stats_fold_dom (registry : list WebsiteScraper.t)
    (stats : gmap string nat) :
  dom (foldl (λ stats s, <[WebsiteScraper.name s := job_count s]> stats)
         stats registry)
  = dom stats ∪ list_to_set (map WebsiteScraper.name registry).
Proof.
  revert stats. induction registry as [|s rest IH]; intros stats; simpl.
  - by rewrite (right_id_L ∅ (∪)).
  - rewrite IH, dom_insert_L. apply set_eq. intros x.
    rewrite !elem_of_union, elem_of_singleton. tauto.
Qed.

Lemma job_items_length s : length (job_items s) = job_count s.
Proof. unfold job_items, job_count. by destruct (future_result s). Qed.

Lemma flat_map_job_items_length registry :
  length (flat_map job_items registry) = registry_count registry.
Proof.
  induction registry as [|s rest IH]; [done|].
  simpl. by rewrite length_app, job_items_length, IH.
Qed.

Lemma registry_count_snoc registry s :
  registry_count (registry ++ [s]) = registry_count registry + job_count s.
Proof.
  induction registry as [|h rest IH]; simpl; [lia|].
  fold (registry_count (rest ++ [s])). fold (registry_count rest). lia.
Qed.

Lemma stats_sum_insert (stats : gmap string nat) (key : string) (count : nat) :
  stats !! key = None →
  stats_sum (<[key := count]> stats) = count + stats_sum stats.
Proof.
  intros Hnone. unfold stats_sum.
  rewrite map_fold_insert_L; [done| |done].
  intros. lia.
Qed.

Lemma stats_sum_registry registry :
  NoDup (map WebsiteScraper.name registry) →
  stats_sum (foldl (λ stats s, <[WebsiteScraper.name s := job_count s]> stats)
               ∅ registry)
  = registry_count registry.
Proof.
  induction registry as [|s rest IH] using rev_ind; intros Hnd; [done|].
  rewrite map_app in Hnd. apply NoDup_app in Hnd as (Hrest & Hdisj & _).
  rewrite foldl_app. simpl.
  rewrite stats_sum_insert.
  - rewrite IH by done. rewrite registry_count_snoc. lia.
  - rewrite stats_fold_other; [apply lookup_empty|].
    intros Hin. apply (Hdisj _ Hin). simpl. apply elem_of_cons. by left.
Qed.


(** Every job of the registry gets an entry in the statistics, whether its
    call returned, raised or overran the timeout; no other entry appears. *)
Theorem every_job_gets_an_entry (self : MainGameScraper) :
  dom (scraping_stats (run_scrapers_parallel self))
  = dom (scraping_stats self)
    ∪ list_to_set (map WebsiteScraper.name (scrapers self)).
Proof. unfold run_scrapers_parallel. rewrite run_stats. apply stats_fold_dom. Qed.

(** The merged collection grows by exactly the counts recorded for the
    jobs. *)
Theorem merged_length_is_sum_of_counts (self : MainGameScraper) :
  length (all_games (run_scrapers_parallel self))
  = length (all_games self) + registry_count (scrapers self).
Proof.
  unfold run_scrapers_parallel.
  by rewrite run_all_games, length_app, flat_map_job_items_length.
Qed.

(** For a fresh orchestrator whose jobs have distinct names, the recorded
    counts sum to the size of the merged collection before deduplication,
    and the [total_games] of the saved report never exceeds that sum. *)
Theorem counts_bound_report_total (registry : list WebsiteScraper.t)
    (now : string) :
  NoDup (map WebsiteScraper.name registry) →
  stats_sum (scraping_stats
               (run_scrapers_parallel (MainGameScraper_init registry)))
  = length (all_games
              (run_scrapers_parallel (MainGameScraper_init registry)))
  ∧ (total_games
       (metadata (save_results now
          (deduplicate_games
             (run_scrapers_parallel (MainGameScraper_init registry)))))
     ≤ stats_sum
         (sources (metadata (save_results now
            (deduplicate_games
               (run_scrapers_parallel (MainGameScraper_init registry)))))))%nat.
Proof.
  intros Hnd.
  assert (stats_sum (scraping_stats
            (run_scrapers_parallel (MainGameScraper_init registry)))
          = length (all_games
              (run_scrapers_parallel (MainGameScraper_init registry))))
    as Hsum.
  { unfold run_scrapers_parallel.
    rewrite run_stats, run_all_games. simpl.
    rewrite stats_sum_registry by done.
    by rewrite flat_map_job_items_length. }
  split; [done|]. simpl. rewrite Hsum.
  apply sublist_length, dedupe_loop_sublist.
Qed.

Lemma counts_bound_report_total_witness :
  stats_sum (scraping_stats
               (run_scrapers_parallel
                  (MainGameScraper_init [job_A; job_raising; job_B])))
  = length (all_games
              (run_scrapers_parallel
                 (MainGameScraper_init [job_A; job_raising; job_B])))
  ∧ (total_games
       (metadata (save_results "2024-01-01T01:00:00"
          (deduplicate_games
             (run_scrapers_parallel
                (MainGameScraper_init [job_A; job_raising; job_B])))))
     ≤ stats_sum
         (sources (metadata (save_results "2024-01-01T01:00:00"
            (deduplicate_games
               (run_scrapers_parallel
                  (MainGameScraper_init [job_A; job_raising; job_B])))))))%nat.
Proof.
  apply (counts_bound_report_total [job_A; job_raising; job_B]
           "2024-01-01T01:00:00").
  simpl. constructor.
  { intros Hin.
    apply elem_of_cons in Hin as [Heq|Hin]; [discriminate|].
    apply elem_of_cons in Hin as [Heq|Hin]; [discriminate|].
    by apply elem_of_nil in Hin. }
  constructor.
  { intros Hin.
    apply elem_of_cons in Hin as [Heq|Hin]; [discriminate|].
    by apply elem_of_nil in Hin. }
  constructor; [|constructor].
  intros Hin. by apply elem_of_nil in Hin.
Defined.

(** No identifier is lost between a job and the final collection: for every
    record a job returned in time, the deduplicated collection holds a
    record with the same identifier. *)
Theorem returned_ids_reach_final_collection (self : MainGameScraper)
    (job : WebsiteScraper.t) (games : list Game) (g : Game) :
  job ∈ scrapers self →
  future_result job = Return games →
  g ∈ games →
  ∃ g', g' ∈ all_games (deduplicate_games (run_scrapers_parallel self))
        ∧ game_id g' = game_id g.
Proof.
  intros Hjob Hres Hg. simpl.
  destruct (dedupe_loop_covers ∅ (all_games (run_scrapers_parallel self)) g)
    as [Hempty|Hfound]; [|by apply not_elem_of_empty in Hempty|done].
  unfold run_scrapers_parallel. rewrite run_all_games.
  apply elem_of_app. right.
  apply list_elem_of_In, in_flat_map. exists job.
  split; [by apply list_elem_of_In|].
  unfold job_items. rewrite Hres. by apply list_elem_of_In.
Qed.

Lemma returned_ids_reach_final_collection_witness :
  ∃ g', g' ∈ all_games
               (deduplicate_games
                  (run_scrapers_parallel
                     (MainGameScraper_init [job_A; job_raising; job_B])))
        ∧ game_id g' = game_id item_foo.
Proof.
  apply (returned_ids_reach_final_collection
           (MainGameScraper_init [job_A; job_raising; job_B]) job_B
           [item_foo; item_Bar] item_foo).
  - simpl. apply elem_of_cons; right. apply elem_of_cons; right.
    apply elem_of_cons; by left.
  - reflexivity.
  - apply elem_of_cons; by left.
Defined.

(** ** More on the report and the statistics *)

(** The CSV summary has one row per record of the collection, in the same
    order, and as many rows flagged [has_embed] as [print_stats] counts
    records with an embed code. *)
Theorem csv_rows_match_collection (self : MainGameScraper) (now : string) :
  length (csv_rows (save_results now self))
  = total_games (metadata (save_results now self))
  ∧ map csv_name (csv_rows (save_results now self)) = map name (all_games self)
  ∧ map csv_url (csv_rows (save_results now self)) = map url (all_games self)
  ∧ length (List.filter has_embed (csv_rows (save_results now self)))
    = length (List.filter with_embed (all_games self)).
Proof.
  simpl. split; [by rewrite length_map|].
  induction (all_games self) as [|g rest (IH1 & IH2 & IH3)]; [done|].
  simpl. rewrite IH1, IH2. split; [done|]. split; [done|].
  unfold with_embed at 1. destruct (negb (str_falsy (iframe_code g))); simpl;
    by rewrite IH3.
Qed.

Lemma percent_bounds (k n : nat) :
  (k ≤ S n)%nat →
  (0 <= (Z.of_nat k # Pos.of_nat (S n)) * 100 <= 100)%Q.
Proof.
  intros Hle. unfold Qle, Qmult. cbn [Qnum Qden].
  rewrite Pos.mul_1_r.
  assert (Z.pos (Pos.of_nat (S n)) = Z.of_nat (S n)) as ->.
  { rewrite <- positive_nat_Z. by rewrite Nat2Pos.id. }
  split; lia.
Qed.

(** On a non-empty collection [print_stats] ends normally; the percentage it
    logs lies between 0 and 100, and it logs one sample line per record up
    to ten. *)
Theorem print_stats_on_nonempty (self : MainGameScraper) :
  all_games self ≠ [] →
  (print_stats self).2 = Return ()
  ∧ (∀ k q, LogEmbed k q ∈ (print_stats self).1 →
       k = length (List.filter with_embed (all_games self))
       ∧ (0 <= q <= 100)%Q)
  ∧ length (List.filter is_sample_line (print_stats self).1)
    = min 10 (length (all_games self)).
Proof.
  intros Hne. unfold print_stats.
  destruct (all_games self) as [|g rest] eqn:Hall; [done|].
  set (k := length (List.filter _ (g :: rest))).
  assert ((k ≤ S (length rest))%nat) as Hk
    by (subst k; apply (filter_length_le _ (g :: rest))).
  cbn [truediv length fst snd]. split; [done|]. split.
  - intros k' q Hin.
    rewrite !elem_of_app in Hin.
    destruct Hin as [Hin|[Hin|[Hin|[Hin|[Hin|[Hin|Hin]]]]]].
    + repeat (apply elem_of_cons in Hin as [Hin|Hin]; [discriminate|]).
      by apply elem_of_nil in Hin.
    + apply list_elem_of_singleton in Hin. injection Hin as -> ->.
      split; [done|]. by apply percent_bounds.
    + apply list_elem_of_singleton in Hin. discriminate.
    + apply list_elem_of_fmap in Hin as (kv & Heq & _). discriminate.
    + apply list_elem_of_singleton in Hin. discriminate.
    + apply elem_of_lookup_imap in Hin as (i & x & Heq & _). discriminate.
    + apply list_elem_of_singleton in Hin. discriminate.
  - rewrite !List.filter_app. rewrite !length_app. simpl.
    assert (∀ stats : list (string * nat),
              List.filter is_sample_line
                (map (λ kv, LogSource kv.1 kv.2) stats) = []) as Hsrc
      by (intros stats; induction stats; simpl; done).
    rewrite Hsrc. simpl.
    assert (∀ (l : list Game) (start : nat),
              length (List.filter is_sample_line
                        (imap (λ i game, LogGame (S (start + i)) (name game)
                                           (source game)) l))
              = length l) as Hsample.
    { induction l as [|h t IH]; intros start; [done|].
      simpl. f_equal. rewrite <- (IH (S start)). do 2 f_equal.
      apply imap_ext. intros i x _. simpl. do 2 f_equal. lia. }
    specialize (Hsample (take 10 (g :: rest)) 0). simpl in Hsample.
    rewrite Nat.add_0_r.
    etrans; [|etrans; [exact Hsample|]].
    + simpl. done.
    + rewrite length_take. simpl. lia.
Qed.

Lemma print_stats_on_nonempty_witness :
  (print_stats (mkMain [] [item_Foo; item_Bar] ∅)).2 = Return ()
  ∧ (∀ k q, LogEmbed k q ∈ (print_stats (mkMain [] [item_Foo; item_Bar] ∅)).1 →
       k = length (List.filter with_embed [item_Foo; item_Bar])
       ∧ (0 <= q <= 100)%Q)
  ∧ length (List.filter is_sample_line
              (print_stats (mkMain [] [item_Foo; item_Bar] ∅)).1)
    = min 10 2.
Proof.
  apply (print_stats_on_nonempty (mkMain [] [item_Foo; item_Bar] ∅)).
  discriminate.
Defined.



(** ** More on the fetch engine *)

Lemma lower_app (a b : string) : lower (a +:+ b) = lower a +:+ lower b.
Proof. induction a as [|c a IH]; simpl; [done|]. by rewrite IH. Qed.

Lemma prefix_app_self (a b : string) : String.prefix a (a +:+ b) = true.
Proof.
  induction a as [|c a IH]; simpl; [by destruct b|].
  destruct (ascii_dec c c); [done|congruence].
Qed.

Lemma contains_app_r (needle a b : string) :
  contains needle b = true → contains needle (a +:+ b) = true.
Proof.
  intros Hb. induction a as [|c a IH]; simpl; [done|].
  rewrite IH. apply orb_true_r.
Qed.

Lemma contains_middle (needle a b : string) :
  contains needle (a +:+ needle +:+ b) = true.
Proof.
  apply contains_app_r.
  pose proof (prefix_app_self needle b) as Hprefix.
  destruct (needle +:+ b); cbn [contains]; by rewrite Hprefix.
Qed.

Lemma get_random_proxy_returns pm draw :
  ∃ identity, get_random_proxy pm draw = Return identity.
Proof.
  destruct (proxies pm) as [|x seq] eqn:Hpool.
  - exists ∅. unfold get_random_proxy. by rewrite Hpool.
  - destruct (get_random_proxy_nonempty pm draw) as (proxy & _ & Heq).
    + by rewrite Hpool.
    + eauto.
Qed.

(** Block detection finds an indicator anywhere in the page and in any
    letter case. *)
Theorem block_detected_any_case (before marker after : string) :
  lower marker ∈ block_indicators →
  block_detected (before +:+ marker +:+ after) = true.
Proof.
  intros Hin. unfold block_detected. apply existsb_exists.
  exists (lower marker). split; [by apply list_elem_of_In|].
  rewrite !lower_app. apply contains_middle.
Qed.

Lemma block_detected_any_case_witness :
  block_detected ("<h1>" +:+ "Access DENIED" +:+ "</h1>") = true.
Proof.
  apply (block_detected_any_case "<h1>" "Access DENIED" "</h1>").
  apply elem_of_cons; right. apply elem_of_cons; right.
  apply elem_of_cons; by left.
Defined.

(** When a user agent is available and the GET answers, the plain path
    returns the text exactly when the status is outside 400..599 and the
    text shows no block indicator, and [None] otherwise. *)
Theorem scrape_with_requests_decides (w : World) (pm : ProxyManager)
    (u ua : string) (use_proxy : bool) (response : Response) :
  ua_random w = Return ua →
  (∀ headers proxies0, requests_get w u headers proxies0 = Return response) →
  scrape_with_requests w pm u use_proxy
  = Return (if ((400 <=? status_code response)
                && (status_code response <? 600))%Z
               || block_detected (text response)
            then None else Some (text response)).
Proof.
  intros Hua Hget. unfold scrape_with_requests, get_headers.
  rewrite Hua. simpl.
  assert (∃ proxies0,
            (if use_proxy then get_random_proxy pm (random_draw w)
             else Return ∅) = Return proxies0) as (proxies0 & ->).
  { destruct use_proxy; [apply get_random_proxy_returns|by exists ∅]. }
  simpl. rewrite Hget. simpl. unfold raise_for_status.
  destruct ((400 <=? status_code response)
            && (status_code response <? 600))%Z; simpl; [done|].
  by destruct (block_detected (text response)).
Qed.

Lemma scrape_with_requests_decides_witness :
  scrape_with_requests world_ok ProxyManager_init "https://poki.com" false
  = Return (if ((400 <=? status_code page_game)
                && (status_code page_game <? 600))%Z
               || block_detected (text page_game)
            then None else Some (text page_game)).
Proof.
  apply (scrape_with_requests_decides world_ok ProxyManager_init
           "https://poki.com" "Mozilla/5.0" false page_game).
  - reflexivity.
  - reflexivity.
Defined.

(** [scrape_with_selenium] lets an exception escape exactly when a browser
    was started and closing it raises; the exception is the one raised by
    [quit]. *)
Theorem scrape_with_selenium_raises_iff (w : World) (pm : ProxyManager)
    (u : string) (e : exn) :
  scrape_with_selenium w pm u = Raise e
  ↔ ∃ d, (selenium_try w pm u).1 = Some d ∧ quit d = Raise e.
Proof.
  unfold scrape_with_selenium.
  destruct (selenium_try w pm u) as [[d|] body]; simpl.
  - split.
    + intros Hraise. exists d. split; [done|].
      unfold try_finally in Hraise.
      destruct (quit d) as [[]|e']; [|congruence].
      destruct body; simpl in Hraise; discriminate.
    + intros (d' & [= <-] & Hquit). by rewrite Hquit.
  - split.
    + destruct body; simpl; discriminate.
    + intros (d' & Hd & _). discriminate.
Qed.

Lemma scrape_with_selenium_raises_iff_witness :
  scrape_with_selenium world_stuck ProxyManager_init "https://poki.com"
  = Raise (WebDriverException "cannot quit").
Proof.
  apply (scrape_with_selenium_raises_iff world_stuck ProxyManager_init
           "https://poki.com" (WebDriverException "cannot quit")).
  exists driver_stuck. split; reflexivity.
Defined.

(** [scrape_with_aiohttp] never raises, and it returns content only for a
    response whose status is exactly 200 and whose text could be read. *)
Theorem scrape_with_aiohttp_only_200 (w : World) (u : string)
    (session_get : string → gmap string string → result AioResponse) :
  (∃ r, scrape_with_aiohttp w u session_get = Return r)
  ∧ (∀ body, scrape_with_aiohttp w u session_get = Return (Some body) →
       ∃ headers response,
         session_get u headers = Return response
         ∧ status response = 200%Z
         ∧ aio_text response = Return body).
Proof.
  split; [apply try_except_returns|].
  intros body. unfold scrape_with_aiohttp, try_except.
  destruct (get_headers w) as [headers|e]; simpl; [|discriminate].
  destruct (session_get u headers) as [response|e] eqn:Hget; simpl;
    [|discriminate].
  destruct (status response =? 200)%Z eqn:Hstatus; simpl; [|discriminate].
  destruct (aio_text response) as [t|e] eqn:Htext; simpl; [|discriminate].
  intros [= <-]. exists headers, response.
  split; [done|]. split; [by apply Z.eqb_eq|done].
Qed.

Lemma scrape_with_aiohttp_only_200_witness :
  ∃ headers response,
    session_ok "https://poki.com" headers = Return response
    ∧ status response = 200%Z
    ∧ aio_text response = Return "<html><body>Bubble Shooter</body></html>".
Proof.
  destruct (scrape_with_aiohttp_only_200 world_ok "https://poki.com"
              session_ok) as [_ Hcontent].
  apply (Hcontent "<html><body>Bubble Shooter</body></html>").
  reflexivity.
Defined.

(** On a non-empty pool the identity routes exactly the two schemes [http]
    and [https], both through the same proxy, which is a member of the
    pool. *)
Theorem get_random_proxy_routes_both (pm : ProxyManager) (draw : nat) :
  proxies pm ≠ [] →
  ∃ proxy identity,
    proxy ∈ proxies pm
    ∧ get_random_proxy pm draw = Return identity
    ∧ identity !! "http" = Some proxy
    ∧ identity !! "https" = Some proxy
    ∧ dom identity = {["http"; "https"]}.
Proof.
  intros Hne.
  destruct (get_random_proxy_nonempty pm draw Hne) as (proxy & Hin & Heq).
  exists proxy, (<["https" := proxy]> (<["http" := proxy]> ∅)).
  split; [done|]. split; [done|].
  split; [by rewrite lookup_insert_ne, lookup_insert_eq|].
  split; [by rewrite lookup_insert_eq|].
  rewrite !dom_insert_L, dom_empty_L. apply set_eq. intros x.
  rewrite !elem_of_union, !elem_of_singleton, elem_of_empty. tauto.
Qed.

Lemma get_random_proxy_routes_both_witness :
  ∃ proxy identity,
    proxy ∈ proxies ProxyManager_init
    ∧ get_random_proxy ProxyManager_init 4 = Return identity
    ∧ identity !! "http" = Some proxy
    ∧ identity !! "https" = Some proxy
    ∧ dom identity = {["http"; "https"]}.
Proof.
  apply (get_random_proxy_routes_both ProxyManager_init 4).
  discriminate.
Defined.

(** ** The site scrapers *)


Lemma foldl_Forall_inv {A B} (P : B → Prop) (step : list B → A → list B)
    (acc : list B) (l : list A) :
  (∀ acc x, Forall P acc → Forall P (step acc x)) →
  Forall P acc → Forall P (foldl step acc l).
Proof.
  intros Hstep. revert acc.
  induction l as [|x rest IH]; intros acc Hacc; [done|].
  simpl. apply IH. by apply Hstep.
Qed.

Lemma foldl_length_bound {A B} (step : list B → A → list B)
    (acc : list B) (l : list A) :
  (∀ acc x, (length (step acc x) ≤ S (length acc))%nat) →
  (length (foldl step acc l) ≤ length acc + length l)%nat.
Proof.
  intros Hstep. revert acc.
  induction l as [|x rest IH]; intros acc; simpl; [lia|].
  specialize (IH (step acc x)). specialize (Hstep acc x). lia.
Qed.



Lemma Game_new_fields now n u s :
  source (Game_new now n u s) = s
  ∧ date_scraped (Game_new now n u s) = now
  ∧ tags (Game_new now n u s) = []
  ∧ name (Game_new now n u s) = n
  ∧ url (Game_new now n u s) = u.
Proof. done. Qed.



(** The Poki loop appends at most one record per element and reads at most
    the first 100 elements; the Coolmath loop reads at most the first 80
    links. *)
Theorem scraper_loops_bounded (w : World) (pm : ProxyManager) (p : Parser)
    (page_iframes : string → list (string * string))
    (now self_name base_url : string) (self_games : list Game) :
  (∀ elements,
     (length (poki_loop w pm p now self_name base_url self_games elements)
      ≤ length self_games + min 100 (length elements))%nat)
  ∧ (∀ links,
       (length (coolmath_loop w pm p page_iframes now self_name base_url
                  self_games links)
        ≤ length self_games + min 80 (length links))%nat).
Proof.
  split.
  - intros elements. unfold poki_loop. rewrite <- length_take.
    apply foldl_length_bound. intros acc element. unfold poki_element.
    destruct (_ && _); [|lia].
    destruct (scrape_with_requests _ _ _ _); [|lia].
    rewrite length_app. simpl. lia.
  - intros links. unfold coolmath_loop. rewrite <- length_take.
    apply foldl_length_bound. intros acc link. unfold coolmath_link.
    destruct (link_href link); [|lia].
    destruct (_ || _); [lia|].
    destruct (scrape_with_requests _ _ _ _); [|lia].
    rewrite length_app. simpl. lia.
Qed.

Lemma contains_slash_cons (c : ascii) (s : string) :
  contains "/" (String c s) = Ascii.eqb c "/" || contains "/" s.
Proof.
  cbn [contains String.prefix].
  destruct (ascii_dec "/" c) as [<-|Hne].
  - simpl. by destruct s.
  - destruct (Ascii.eqb c "/") eqn:Heq; [|done].
    apply Ascii.eqb_eq in Heq. congruence.
Qed.

Lemma contains_slash_app (a b : string) :
  contains "/" (a +:+ b) = contains "/" a || contains "/" b.
Proof.
  induction a as [|c a IH]; [by destruct b|].
  change (String c a +:+ b) with (String c (a +:+ b)).
  rewrite !contains_slash_cons, IH. by rewrite orb_assoc.
Qed.

Lemma last_segment_from_no_slash (acc s : string) :
  contains "/" acc = false → contains "/" (last_segment_from acc s) = false.
Proof.
  revert acc. induction s as [|c s IH]; intros acc Hacc; [done|].
  simpl. destruct (Ascii.eqb c "/") eqn:Hc.
  - by apply IH.
  - apply IH. rewrite contains_slash_app, Hacc, contains_slash_cons, Hc.
    done.
Qed.

Lemma rstrip_slash_app_slash (s : string) :
  rstrip_slash (s +:+ "/") = rstrip_slash s.
Proof.
  induction s as [|c s IH]; [done|].
  change (String c s +:+ "/") with (String c (s +:+ "/")).
  simpl. by rewrite IH.
Qed.

(** The slug taken from a game URL for the constructed embed address never
    holds a slash, and a trailing slash on the URL does not change it. *)
Theorem game_slug_has_no_slash (game_url : string) :
  contains "/" (last_segment (rstrip_slash game_url)) = false
  ∧ last_segment (rstrip_slash (game_url +:+ "/"))
    = last_segment (rstrip_slash game_url).
Proof.
  split.
  - by apply last_segment_from_no_slash.
  - by rewrite rstrip_slash_app_slash.
Qed.




Lemma length_substring_0 (n : nat) (s : string) :
  String.length (String.substring 0 n s) = min n (String.length s).
Proof.
  revert s. induction n as [|n IH]; intros s; destruct s as [|c s]; simpl;
    try done.
  by rewrite IH.
Qed.

Lemma coolmath_scan_keeps iframes game :
  name (coolmath_scan iframes game) = name game
  ∧ source (coolmath_scan iframes game) = source game.
Proof.
  induction iframes as [|iframe rest IH]; simpl; [done|].
  by destruct (_ || _).
Qed.

Lemma coolmath_embed_keeps page_iframes game_url game_html game :
  name (coolmath_embed page_iframes game_url game_html game) = name game
  ∧ source (coolmath_embed page_iframes game_url game_html game)
    = source game.
Proof.
  unfold coolmath_embed. destruct game_html as [html|]; [|done].
  destruct (str_falsy html); [done|].
  destruct (coolmath_scan_keeps (page_iframes html) game) as [Hn Hs].
  by destruct (str_falsy (iframe_code _)).
Qed.

(** Every record the Coolmath loop appends has a name of 2 to 200
    characters and the job's name as source. *)
Theorem coolmath_loop_records (w : World) (pm : ProxyManager) (p : Parser)
    (page_iframes : string → list (string * string))
    (now self_name base_url : string) (self_games : list Game)
    (links : list CoolmathLink) :
  Forall (coolmath_record self_name) self_games →
  Forall (coolmath_record self_name)
    (coolmath_loop w pm p page_iframes now self_name base_url self_games
       links).
Proof.
  unfold coolmath_loop. apply foldl_Forall_inv.
  intros acc link Hacc. unfold coolmath_link.
  destruct (link_href link) as [href|]; [|done].
  set (title := match link_title link with
                | Some t => t
                | None => link_text link
                end).
  destruct (str_falsy title || (String.length title <? 2)%nat) eqn:Hcond;
    [done|].
  destruct (scrape_with_requests _ _ _ _) as [game_html|e]; [|done].
  apply Forall_app. split; [done|]. apply Forall_singleton.
  apply orb_false_iff in Hcond as [_ Hlen]. apply Nat.ltb_ge in Hlen.
  unfold coolmath_record.
  destruct (coolmath_embed_keeps page_iframes (urljoin p base_url href)
              game_html
              (match link_img link with
               | Some src =>
                   set_image_url (urljoin p base_url src)
                     (Game_new now (String.substring 0 200 title)
                        (urljoin p base_url href) self_name)
               | None =>
                   Game_new now (String.substring 0 200 title)
                     (urljoin p base_url href) self_name
               end)) as [Hn Hs].
  rewrite Hn, Hs.
  assert (∀ g0 : Game,
            name (match link_img link with
                  | Some src => set_image_url (urljoin p base_url src) g0
                  | None => g0
                  end) = name g0
            ∧ source (match link_img link with
                      | Some src => set_image_url (urljoin p base_url src) g0
                      | None => g0
                      end) = source g0) as Himg
    by (intros g0; by destruct (link_img link)).
  destruct (Himg (Game_new now (String.substring 0 200 title)
                    (urljoin p base_url href) self_name)) as [-> ->].
  simpl. rewrite length_substring_0. repeat split; lia.
Qed.

Lemma coolmath_loop_records_witness :
  Forall (coolmath_record "Coolmath Games")
    (coolmath_loop world_ok ProxyManager_init parser_plain iframes_ads
       "2024-01-01T00:00:00" "Coolmath Games" "https://www.coolmathgames.com"
       [] [link_short; link_chess]).
Proof.
  apply (coolmath_loop_records world_ok ProxyManager_init parser_plain
           iframes_ads "2024-01-01T00:00:00" "Coolmath Games"
           "https://www.coolmathgames.com" [] [link_short; link_chess]).
  constructor.
Defined.



(** A listing page that cannot be used gives an empty job result instead of
    an exception: for Coolmath when the page fails the status check or shows
    a block indicator, for Poki when the request raises. *)
Theorem unusable_listing_gives_no_items (w : World) (pm : ProxyManager)
    (p : Parser) (now self_name base_url : string) (self_games : list Game) :
  (∀ page_iframes listing_links response,
     (∀ headers proxies0,
        requests_get w (base_url +:+ "/0-all-games") headers proxies0
        = Return response) →
     raise_for_status response ≠ Return ()
     ∨ block_detected (text response) = true →
     coolmath_scrape w pm p page_iframes listing_links now self_name base_url
       self_games = [])
  ∧ (∀ game_elements e,
       cloudscraper_get w base_url = Raise e →
       poki_scrape w pm p game_elements now self_name base_url self_games
       = []).
Proof.
  split.
  - intros page_iframes listing_links response Hget Hbad.
    unfold coolmath_scrape.
    by rewrite (scrape_with_requests_rejected w pm _ true response Hget Hbad).
  - intros game_elements e Hraise. unfold poki_scrape, scrape_with_cloudscraper.
    by rewrite Hraise.
Qed.

Lemma unusable_listing_gives_no_items_witness :
  coolmath_scrape world_blocked ProxyManager_init parser_plain iframes_ads
    (λ _, [link_chess]) "2024-01-01T00:00:00" "Coolmath Games"
    "https://www.coolmathgames.com" [] = []
  ∧ poki_scrape world_refused ProxyManager_init parser_plain
      (λ _, [element_Foo]) "2024-01-01T00:00:00" "Poki" "https://poki.com" []
    = [].
Proof.
  destruct (unusable_listing_gives_no_items world_blocked ProxyManager_init
              parser_plain "2024-01-01T00:00:00" "Coolmath Games"
              "https://www.coolmathgames.com" []) as [Hcool _].
  destruct (unusable_listing_gives_no_items world_refused ProxyManager_init
              parser_plain "2024-01-01T00:00:00" "Poki" "https://poki.com" [])
    as [_ Hpoki].
  split.
  - apply (Hcool iframes_ads (λ _, [link_chess]) page_captcha).
    + reflexivity.
    + right. vm_compute. reflexivity.
  - apply (Hpoki (λ _, [element_Foo]) (ConnectionError "connection refused")).
    reflexivity.
Defined.

Lemma unblocked_link_records w pm p now site_url sites acc link :
  site_url ∈ sites →
  Forall (unblocked_record sites) acc →
  Forall (unblocked_record sites)
    (unblocked_link w pm p now site_url acc link).
Proof.
  intros Hsite Hacc. unfold unblocked_link.
  destruct (_ && _) eqn:Hcond; [|done].
  set (href1 := if negb (startswith_any ["http"; "//"] (site_href link))
                then urljoin p site_url (site_href link)
                else site_href link).
  destruct (skipped_link href1) eqn:Hskip; [done|].
  apply Forall_app. split; [done|]. apply Forall_singleton.
  apply andb_true_iff in Hcond as [Hlen _]. apply Nat.ltb_lt in Hlen.
  set (game := Game_new now (String.substring 0 100 (site_text link)) href1
                 ("Unblocked (" +:+ site_url +:+ ")")).
  assert (∀ g1 : Game,
            name g1 = name game → url g1 = url game →
            source g1 = source game → unblocked_record sites g1) as Hrec.
  { intros g1 Hn Hu Hs. unfold unblocked_record. rewrite Hn, Hu, Hs.
    subst game. simpl. rewrite length_substring_0.
    split; [lia|]. split; [lia|]. split; [done|]. by exists site_url. }
  destruct (scrape_with_requests w pm href1 true) as [[html|]|e];
    try by apply Hrec.
  destruct (str_falsy html); [by apply Hrec|].
  destruct (extract_iframes p html); by apply Hrec.
Qed.

(** Every record the Unblocked job collects has a name of 3 to 100
    characters, a URL that holds none of the markers [mailto:],
    [javascript:], [#] and [?] in any letter case, and names its site in
    the source. *)
Theorem unblocked_records (w : World) (pm : ProxyManager) (p : Parser)
    (site_links : string → list SiteLink) (now : string)
    (self_games : list Game) (sites : list string) :
  Forall (unblocked_record sites) self_games →
  Forall (unblocked_record sites)
    (unblocked_over w pm p site_links now self_games sites).
Proof.
  unfold unblocked_over.
  assert (∀ todo acc,
            (∀ x, x ∈ todo → x ∈ sites) →
            Forall (unblocked_record sites) acc →
            Forall (unblocked_record sites)
              (foldl (unblocked_site w pm p site_links now) acc todo))
    as Hloop.
  { induction todo as [|site_url rest IH]; intros acc Hsub Hacc; [done|].
    simpl. apply IH.
    - intros x Hx. apply Hsub, elem_of_cons. by right.
    - unfold unblocked_site.
      destruct (scrape_with_requests w pm site_url true) as [[html|]|e];
        try done.
      destruct (str_falsy html); [done|].
      generalize (take 50 (site_links html)) as links. intros links.
      revert acc Hacc. induction links as [|link more IHl]; intros acc Hacc;
        [done|].
      simpl. apply IHl. apply unblocked_link_records; [|done].
      apply Hsub, elem_of_cons. by left. }
  intros Hacc. by apply Hloop.
Qed.

Lemma unblocked_records_witness :
  Forall (unblocked_record unblocked_sites)
    (unblocked_over world_ok ProxyManager_init parser_plain links_sample
       "2024-01-01T00:00:00" [] unblocked_sites).
Proof.
  apply (unblocked_records world_ok ProxyManager_init parser_plain
           links_sample "2024-01-01T00:00:00" [] unblocked_sites).
  constructor.
Defined.

(** A site whose page cannot be fetched contributes nothing and does not
    stop the loop: the job collects what it collects from the other
    sites. *)
Theorem unblocked_site_failure_isolated (w : World) (pm : ProxyManager)
    (p : Parser) (site_links : string → list SiteLink) (now : string)
    (self_games : list Game) (before after : list string) (down : string)
    (e : exn) :
  (∀ headers proxies0, requests_get w down headers proxies0 = Raise e) →
  unblocked_over w pm p site_links now self_games (before ++ down :: after)
  = unblocked_over w pm p site_links now self_games (before ++ after).
Proof.
  intros Hdown. unfold unblocked_over. rewrite !foldl_app. simpl.
  unfold unblocked_site at 2.
  by rewrite (scrape_with_requests_transport w pm down true e Hdown).
Qed.

Lemma unblocked_site_failure_isolated_witness :
  unblocked_over world_one_down ProxyManager_init parser_plain links_sample
    "2024-01-01T00:00:00" []
    (["https://sites.google.com/view/tyronesgameshack";
      "https://sites.google.com/site/unblockedgames66ez"]
     ++ "https://sites.google.com/view/classroom6x"
        :: ["https://sites.google.com/view/unblockedgameswtf";
            "https://sites.google.com/view/unblocked-games-76"])
  = unblocked_over world_one_down ProxyManager_init parser_plain links_sample
      "2024-01-01T00:00:00" []
      (["https://sites.google.com/view/tyronesgameshack";
        "https://sites.google.com/site/unblockedgames66ez"]
       ++ ["https://sites.google.com/view/unblockedgameswtf";
           "https://sites.google.com/view/unblocked-games-76"]).
Proof.
  apply (unblocked_site_failure_isolated world_one_down ProxyManager_init
           parser_plain links_sample "2024-01-01T00:00:00" []
           ["https://sites.google.com/view/tyronesgameshack";
            "https://sites.google.com/site/unblockedgames66ez"]
           ["https://sites.google.com/view/unblockedgameswtf";
            "https://sites.google.com/view/unblocked-games-76"]
           "https://sites.google.com/view/classroom6x"
           (ConnectionError "connection refused")).
  reflexivity.
Defined.
